(** * filter_leads.py: the lead filtering, tiering and ranking pipeline

    A shallow embedding of [src/filter_leads.py] and the properties of its
    loader, filter, classifier, ranker and exporter.

    Modelling conventions.
    - A Python [str] is a [string]; a character stands for the code point of
      the same number, so the modelled texts are those over code points
      0..255.  [isspace] and [lower_char] are Python's on that range.
    - A decoded JSON value is a [json]; a number is an [int] or a [float],
      the floats being the IEEE 754 doubles with their infinities, signed
      zeros and NaN; a dict is the list of its bindings in insertion order.
    - An operation that raises in Python returns [Raise] in the [result]
      monad; the exception classes the script can meet are in [exn].
    - The file system is a finite map from file names to file contents; the
      console is the list of the texts given to [print], oldest first.  A
      statement that acts on them is an [action]: it returns the world it
      leaves, also when it raises.
    - Reading and decoding the input file, [json.loads], the csv writer's
      row formatting and encoding, opening a file for writing, writing to
      standard output and [str()] of a value inside an f-string belong to
      Python's library; they are the variables of section [Pipeline], and
      each of them can raise where the library can. *)

From Stdlib Require Import ZArith Ascii String Sorted.
From Stdlib Require QArith.
From stdpp Require Import base decidable option list strings pretty gmap.

#[local] Open Scope Z_scope.
#[local] Set Warnings "-register-all".

(** ** Python strings *)

Module Str.

(** [c.isspace()] for a code point below 256. *)
Definition isspace (c : ascii) : bool :=
  let n := N_of_ascii c in
  ((9 <=? n) && (n <=? 13) || (28 <=? n) && (n <=? 32)
   || (n =? 133) || (n =? 160))%N.

(** [c.lower()] for a code point below 256. *)
Definition lower_char (c : ascii) : ascii :=
  let n := N_of_ascii c in
  if ((65 <=? n) && (n <=? 90)
      || (192 <=? n) && (n <=? 222) && negb (n =? 215))%N
  then ascii_of_N (n + 32) else c.

(** [s.lower()] *)
Fixpoint lower (s : string) : string :=
  match s with
  | EmptyString => EmptyString
  | String c s' => String (lower_char c) (lower s')
  end.

(** [s.lstrip()] *)
Fixpoint lstrip (s : string) : string :=
  match s with
  | EmptyString => EmptyString
  | String c s' => if isspace c then lstrip s' else s
  end.

(** [s.rstrip()] *)
Fixpoint rstrip (s : string) : string :=
  match s with
  | EmptyString => EmptyString
  | String c s' =>
      match rstrip s' with
      | EmptyString => if isspace c then EmptyString else String c EmptyString
      | r => String c r
      end
  end.

(** [s.strip()] *)
Definition strip (s : string) : string := rstrip (lstrip s).

(** [text.startswith(kw)] *)
Fixpoint startswith (kw text : string) : bool :=
  match kw, text with
  | EmptyString, _ => true
  | String _ _, EmptyString => false
  | String a kw', String b text' => Ascii.eqb a b && startswith kw' text'
  end.

(** [kw in text] *)
Fixpoint contains (kw text : string) : bool :=
  startswith kw text
  || match text with
     | EmptyString => false
     | String _ text' => contains kw text'
     end.

(** [sep.join(parts)] for a list of strings *)
Fixpoint join (sep : string) (parts : list string) : string :=
  match parts with
  | [] => ""
  | [p] => p
  | p :: ps => p +:+ sep +:+ join sep ps
  end.

(** The one-character strings a [str] yields when iterated. *)
Fixpoint chars (s : string) : list string :=
  match s with
  | EmptyString => []
  | String c s' => String c EmptyString :: chars s'
  end.

(** [bool(s)]: a string is true when it is not empty. *)
Definition nonempty (s : string) : bool :=
  match s with EmptyString => false | String _ _ => true end.

(** The last character of a string, if any. *)
Fixpoint last (s : string) : option ascii :=
  match s with
  | EmptyString => None
  | String c EmptyString => Some c
  | String _ s' => last s'
  end.

(** A text of white space only. *)
Fixpoint blank (s : string) : bool :=
  match s with
  | EmptyString => true
  | String c s' => isspace c && blank s'
  end.

(** The line feed. *)
Definition nl : string := String "010"%char EmptyString.

End Str.

(** ** Python numbers *)

(** A Python [float], an IEEE 754 double: NaN, an infinity, a zero, or
    the number [m * 2^e] with its sign. *)
Inductive pyfloat : Type :=
  | FNaN
  | FInf (negative : bool)
  | FZero (negative : bool)
  | FNum (negative : bool) (m : positive) (e : Z).

(** An [int] or a [float]. *)
Inductive num : Type :=
  | NInt (n : Z)
  | NFloat (f : pyfloat).

Module Num.

(** The place of a number on the extended rational line; NaN has none. *)
Inductive ext : Type :=
  | NegInf
  | Fin (q : QArith_base.Q)
  | PosInf.

Definition dyadic (negative : bool) (m : positive) (e : Z) : QArith_base.Q :=
  let z := if negative then Z.neg m else Z.pos m in
  match e with
  | Z0 => QArith_base.Qmake z 1
  | Z.pos p => QArith_base.Qmake (z * Z.pow_pos 2 p) 1
  | Z.neg p => QArith_base.Qmake z (Pos.pow 2 p)
  end.

Definition value (x : num) : option ext :=
  match x with
  | NInt n => Some (Fin (QArith_base.inject_Z n))
  | NFloat FNaN => None
  | NFloat (FInf negative) => Some (if negative then NegInf else PosInf)
  | NFloat (FZero _) => Some (Fin (QArith_base.inject_Z 0))
  | NFloat (FNum negative m e) => Some (Fin (dyadic negative m e))
  end.

Definition ext_compare (a b : ext) : comparison :=
  match a, b with
  | NegInf, NegInf => Eq
  | NegInf, _ => Lt
  | Fin _, NegInf => Gt
  | Fin p, Fin q => QArith_base.Qcompare p q
  | Fin _, PosInf => Lt
  | PosInf, PosInf => Eq
  | PosInf, _ => Gt
  end.

Definition ext_opp (a : ext) : ext :=
  match a with
  | NegInf => PosInf
  | Fin q => Fin (QArith_base.Qopp q)
  | PosInf => NegInf
  end.

(** How two numbers compare: by their exact values, whether [int] or
    [float]; a NaN compares with nothing, itself included. *)
Definition compare (x y : num) : option comparison :=
  match value x, value y with
  | Some a, Some b => Some (ext_compare a b)
  | _, _ => None
  end.

(** [x < y] *)
Definition ltb (x y : num) : bool :=
  match compare x y with Some Lt => true | _ => false end.

(** [x <= y] *)
Definition leb (x y : num) : bool :=
  match compare x y with Some Lt | Some Eq => true | _ => false end.

(** [x == y] *)
Definition eqb (x y : num) : bool :=
  match compare x y with Some Eq => true | _ => false end.

(** [-x] *)
Definition neg (x : num) : num :=
  match x with
  | NInt n => NInt (- n)
  | NFloat FNaN => NFloat FNaN
  | NFloat (FInf s) => NFloat (FInf (negb s))
  | NFloat (FZero s) => NFloat (FZero (negb s))
  | NFloat (FNum s m e) => NFloat (FNum (negb s) m e)
  end.

Definition is_nan (x : num) : bool :=
  match x with NFloat FNaN => true | _ => false end.

(** [bool(x)]: every number but the zeros is true, NaN included. *)
Definition nonzero (x : num) : bool :=
  match x with
  | NInt n => negb (n =? 0)
  | NFloat (FZero _) => false
  | NFloat _ => true
  end.

End Num.

(** ** Decoded JSON values and Python's operations on them *)

Inductive json : Type :=
  | JNull
  | JBool (b : bool)
  | JInt (n : Z)
  | JFloat (f : pyfloat)
  | JStr (s : string)
  | JArr (l : list json)
  | JObj (d : list (string * json)).

(** The exception classes met in a run.  [OSError] stands for its
    subclasses too. *)
Inductive exn : Type :=
  | AttributeError
  | TypeError
  | ValueError
  | RecursionError
  | UnicodeDecodeError
  | UnicodeEncodeError
  | OSError.

Inductive result (A : Type) : Type :=
  | Ok (a : A)
  | Raise (e : exn).
Arguments Ok {A} a.
Arguments Raise {A} e.

#[global] Instance result_ret : MRet result := @Ok.
#[global] Instance result_bind : MBind result := λ A B f m,
  match m with Ok a => f a | Raise e => Raise e end.

Module Py.

(** [bool(v)] *)
Definition truthy (v : json) : bool :=
  match v with
  | JNull => false
  | JBool b => b
  | JInt n => negb (n =? 0)
  | JFloat f => Num.nonzero (NFloat f)
  | JStr s => Str.nonempty s
  | JArr l => match l with [] => false | _ => true end
  | JObj d => match d with [] => false | _ => true end
  end.

(** [v or d] *)
Definition or (v d : json) : json := if truthy v then v else d.

(** [d[k]] when the key is bound. *)
Fixpoint lookup (d : list (string * json)) (k : string) : option json :=
  match d with
  | [] => None
  | (k', v) :: d' => if String.eqb k' k then Some v else lookup d' k
  end.

(** [e.get(k, dflt)]: only a dict has the method. *)
Definition get (e : json) (k : string) (dflt : json) : result json :=
  match e with
  | JObj d => Ok (default dflt (lookup d k))
  | _ => Raise AttributeError
  end.

(** [v.strip()]: only a [str] has the method. *)
Definition strip (v : json) : result string :=
  match v with
  | JStr s => Ok (Str.strip s)
  | _ => Raise AttributeError
  end.

(** The number a value is, if it is one; [bool] is a subclass of [int]. *)
Definition number (v : json) : option num :=
  match v with
  | JInt n => Some (NInt n)
  | JBool b => Some (NInt (Z.b2z b))
  | JFloat f => Some (NFloat f)
  | _ => None
  end.

(** [v < n] for an [int] n. *)
Definition lt (v : json) (n : Z) : result bool :=
  match number v with
  | Some m => Ok (Num.ltb m (NInt n))
  | None => Raise TypeError
  end.

(** [-v] *)
Definition neg (v : json) : result num :=
  match number v with
  | Some m => Ok (Num.neg m)
  | None => Raise TypeError
  end.

(** The items of a list, when each is a [str]. *)
Fixpoint strs (l : list json) : result (list string) :=
  match l with
  | [] => Ok []
  | JStr s :: l' => ss ← strs l'; Ok (s :: ss)
  | _ :: _ => Raise TypeError
  end.

(** [sep.join(v)]: a list must hold strings, a [str] yields its
    characters, a dict its keys; nothing else can be iterated. *)
Definition join (sep : string) (v : json) : result string :=
  match v with
  | JArr l => ss ← strs l; Ok (Str.join sep ss)
  | JStr s => Ok (Str.join sep (Str.chars s))
  | JObj d => Ok (Str.join sep (d.*1))
  | _ => Raise TypeError
  end.


End Py.

(** ** Constants of the script *)

Definition INPUT_FILE : string := "bucharest-results.json".
Definition OUTPUT_ALL : string := "bucharest-leads-all.csv".
Definition OUTPUT_TIER1 : string := "bucharest-leads-tier1.csv".
Definition OUTPUT_TIER2 : string := "bucharest-leads-tier2.csv".

Definition TIER1_KEYWORDS : list string :=
  [ "instalator"; "plumber"; "instalatii";
    "electrician"; "electrice"; "electric";
    "acoperis"; "roofer"; "roof";
    "service auto"; "vulcanizare"; "mecanic auto"; "reparatii auto";
    "auto repair"; "car service"; "car repair";
    "amenajari"; "gradini"; "peisagist"; "landscap"; "gradinar";
    "spatii verzi" ].

Definition TIER2_KEYWORDS : list string :=
  [ "dentist"; "stomatolog"; "dentar"; "dental"; "implant";
    "salon"; "coafor"; "coafura"; "frizerie"; "hair"; "infrumusetare";
    "beauty";
    "fitness" ].

(** ** Classifier *)

(** [any(kw in text for kw in kws)], the shape of both keyword loops. *)
Definition any_keyword (kws : list string) (text : string) : bool :=
  existsb (λ kw, Str.contains kw text) kws.

(** The tier of a search text already built and lowercased. *)
Definition tier_of_text (text : string) : Z :=
  if any_keyword TIER1_KEYWORDS text then 1
  else if any_keyword TIER2_KEYWORDS text then 2
  else 3.

(** [classify_tier(title, categories)] *)
Definition classify_tier (title : string) (categories : json) : result Z :=
  joined ← Py.join " " categories;
  let text := Str.lower (title +:+ " " +:+ joined) in
  Ok (tier_of_text text).

(** ** Leads *)

(** The dict built for a lead.  [tier], [title], [phone] and [emails] are
    computed by the script, so their types are known; [review_count] is the
    decoded value or the literal 0; the other fields are copied. *)
Record Lead : Type := mkLead {
  tier : Z;
  title : string;
  category : json;
  phone : string;
  emails : string;
  review_count : json;
  review_rating : json;
  address : json;
  google_maps_link : json;
  status : json
}.

(** ** Loader *)

(** What [json.loads(line)] does: it returns a value, raises
    [json.JSONDecodeError], or raises another exception: [ValueError] for
    an integer of more digits than [int()] converts, [RecursionError] for a
    text nested too deep. *)
Inductive parsed : Type :=
  | Parsed (v : json)
  | DecodeError
  | OtherError (e : exn).

Section Loader.

Variable json_loads : string → parsed.

(** One turn of the loop over the lines of the file; only
    [json.JSONDecodeError] is caught. *)
Definition load_line (entries : list json) (line : string)
  : result (list json) :=
  let line := Str.strip line in
  if negb (Str.nonempty line) then Ok entries
  else match json_loads line with
       | Parsed entry => Ok (entries ++ [entry])
       | DecodeError => Ok entries
       | OtherError e => Raise e
       end.

Fixpoint load_from (entries : list json) (lines : list string)
  : result (list json) :=
  match lines with
  | [] => Ok entries
  | line :: lines' =>
      entries' ← load_line entries line; load_from entries' lines'
  end.

Definition load (lines : list string) : result (list json) :=
  load_from [] lines.

End Loader.

(** ** Filter *)

(** One turn of the loop over the entries; the state is the list [leads]
    and the set [seen]. *)
Definition filter_entry (st : list Lead * gset string) (e : json)
  : result (list Lead * gset string) :=
  let '(leads, seen) := st in
  website ← (v ← Py.get e "web_site" JNull; Py.strip (Py.or v (JStr "")));
  review_count ← (v ← Py.get e "review_count" (JInt 0); Ok (Py.or v (JInt 0)));
  phone ← (v ← Py.get e "phone" JNull; Py.strip (Py.or v (JStr "")));
  emails ← (v ← Py.get e "emails" JNull; Ok (Py.or v (JArr [])));
  title ← (v ← Py.get e "title" JNull; Py.strip (Py.or v (JStr "")));
  if Str.nonempty website then Ok st else
  few ← Py.lt review_count 1;
  if few : bool then Ok st else
  if negb (Str.nonempty phone) && negb (Py.truthy emails) then Ok st else
  let dedup_key := title +:+ "|" +:+ phone in
  if bool_decide (dedup_key ∈ seen) then Ok st else
  let seen := seen ∪ {[ dedup_key ]} in
  categories ← (v ← Py.get e "categories" JNull; Ok (Py.or v (JArr [])));
  tier ← classify_tier title categories;
  category ← Py.get e "category" (JStr "");
  emails_text ← (if Py.truthy emails then Py.join "; " emails else Ok "");
  review_rating ← Py.get e "review_rating" (JInt 0);
  address ← Py.get e "address" (JStr "");
  link ← Py.get e "link" (JStr "");
  status ← Py.get e "status" (JStr "");
  Ok (leads ++ [ mkLead tier title category phone emails_text review_count
                        review_rating address link status ],
      seen).

Fixpoint filter_loop (st : list Lead * gset string) (entries : list json)
  : result (list Lead * gset string) :=
  match entries with
  | [] => Ok st
  | e :: entries' => st' ← filter_entry st e; filter_loop st' entries'
  end.

(** The list [leads] when the loop ends. *)
Definition filter_leads (entries : list json) : result (list Lead) :=
  st ← filter_loop ([], ∅) entries; Ok st.1.

(** ** Ranker *)

(** [x < y] on the tuples the sort key returns: the first components
    decide when they differ, the second ones otherwise. *)
Definition key_lt (a b : Z * num) : bool :=
  (a.1 <? b.1) || ((a.1 =? b.1) && Num.ltb a.2 b.2).

(** [lambda x: (x["tier"], -x["review_count"])] *)
Definition sort_key (x : Lead) : result (Z * num) :=
  n ← Py.neg (review_count x); Ok (tier x, n).

(** [list.sort] first computes the key of every item. *)
Fixpoint decorate (leads : list Lead) : result (list ((Z * num) * Lead)) :=
  match leads with
  | [] => Ok []
  | x :: leads' => k ← sort_key x; rest ← decorate leads'; Ok ((k, x) :: rest)
  end.

(** [list.sort] is a stable sort driven by [<] on the keys, modelled by
    stable insertion.  When no key holds a NaN, [<] orders the keys and a
    ranked permutation that keeps ties in order is unique
    ([sort_leads_unique] below), so stable insertion returns what
    [list.sort] returns.  With a NaN among the keys [<] is no order, the
    result of [list.sort] depends on how it merges, and stable insertion
    need not arrange the review counts as [list.sort] does; so every
    property below that speaks of the order of review counts assumes that
    none is NaN. *)
Section StableSort.
Context {K A : Type} (lt : K → K → bool).

Fixpoint insert_keyed (x : K * A) (l : list (K * A)) : list (K * A) :=
  match l with
  | [] => [x]
  | y :: l' => if lt y.1 x.1 then y :: insert_keyed x l' else x :: l
  end.

Fixpoint stable_sort (l : list (K * A)) : list (K * A) :=
  match l with
  | [] => []
  | x :: l' => insert_keyed x (stable_sort l')
  end.
End StableSort.

(** [leads.sort(key=lambda x: (x["tier"], -x["review_count"]))] *)
Definition sort_leads (leads : list Lead) : result (list Lead) :=
  keyed ← decorate leads; Ok (stable_sort key_lt keyed).*2.

(** ** Exporter and the whole script *)

Definition fieldnames : list string :=
  [ "tier"; "title"; "category"; "phone"; "emails";
    "review_count"; "review_rating"; "address"; "google_maps_link"; "status" ].

(** The values of a lead in the order of [fieldnames]. *)
Definition row_values (x : Lead) : list json :=
  [ JInt (tier x); JStr (title x); category x; JStr (phone x); JStr (emails x);
    review_count x; review_rating x; address x; google_maps_link x; status x ].

(** How the process ends. *)
Inductive outcome : Type :=
  | Completed
  | SysExit (code : Z)
  | Uncaught (e : exn).

(** The exit status the shell sees; an uncaught exception gives 1. *)
Definition exit_status (o : outcome) : Z :=
  match o with
  | Completed => 0
  | SysExit code => code
  | Uncaught _ => 1
  end.

Record world : Type := mkWorld {
  files : gmap string string;
  console : list string
}.

(** A statement that acts on the world: it leaves a world, and returns a
    value or raises. *)
Definition action (A : Type) : Type := world → world * result A.

#[global] Instance action_ret : MRet action := λ A a w, (w, Ok a).
#[global] Instance action_bind : MBind action := λ A B k m w,
  match m w with
  | (w', Ok a) => k a w'
  | (w', Raise e) => (w', Raise e)
  end.

(** A computation that leaves the world as it is. *)
Definition eval {A : Type} (r : result A) : action A := λ w, (w, r).

(** Reading a text file translates [\r\n] and [\r] to [\n]. *)
Fixpoint universal_newlines (s : string) : string :=
  match s with
  | EmptyString => EmptyString
  | String c s' =>
      if Ascii.eqb c "013" then
        String "010"
          match s' with
          | String c' s'' =>
              if Ascii.eqb c' "010" then universal_newlines s''
              else universal_newlines s'
          | EmptyString => EmptyString
          end
      else String c (universal_newlines s')
  end.

(** The lines a text yields, each with its line feed. *)
Fixpoint lines_keepends (s : string) : list string :=
  match s with
  | EmptyString => []
  | String c s' =>
      if Ascii.eqb c "010" then String c EmptyString :: lines_keepends s'
      else match lines_keepends s' with
           | [] => [String c EmptyString]
           | l :: ls => String c l :: ls
           end
  end.

(** [for line in f] *)
Definition file_lines (text : string) : list string :=
  lines_keepends (universal_newlines text).

Section Pipeline.

(** Opening the input file and decoding it as UTF-8, as the loop over its
    lines sees it: the text of the lines the iterator yields, and the
    exception that then stops it, if any ([UnicodeDecodeError] when the
    contents are not UTF-8, [OSError] when the file cannot be read). *)
Variable read_text : string → string * option exn.
(** [json.loads] *)
Variable json_loads : string → parsed.
(** The text the csv writer puts in the file for one row, line terminator
    included; it raises when the row cannot be written
    ([UnicodeEncodeError] for a text that UTF-8 cannot encode). *)
Variable csv_row : list json → result string.
(** [str(v)], as an f-string formats a value. *)
Variable py_str : json → string.
(** The exception, if any, that opening the named file for writing
    raises. *)
Variable open_error : string → option exn.
(** The exception, if any, that writing a text to standard output raises
    ([UnicodeEncodeError] when its encoding lacks a character). *)
Variable stdout_error : string → option exn.

(** The two characters that follow the rating in the preview line of the
    source text: U+00E2 and U+00AD. *)
Definition rating_mark : string := String "226" (String "173" "").

(** [print(text)] *)
Definition print (text : string) : action unit := λ w,
  match stdout_error text with
  | Some e => (w, Raise e)
  | None => (mkWorld (files w) (console w ++ [text]), Ok ())
  end.

(** Lines 55-65: the entries of the input file.  An exception of
    [json.loads] on a line comes before one of the iterator on a later
    line. *)
Definition read_entries (content : string) : result (list json) :=
  let '(text, failure) := read_text content in
  entries ← load json_loads (file_lines text);
  match failure with
  | Some e => Raise e
  | None => Ok entries
  end.

(** The text that reaches the file when the rows are written one after the
    other, and the exception of the first row that cannot be written, if
    any; the rows before it stay in the file. *)
Fixpoint write_rows (rows : list (list json)) : string * option exn :=
  match rows with
  | [] => ("", None)
  | row :: rows' =>
      match csv_row row with
      | Raise e => ("", Some e)
      | Ok t => let '(rest, failure) := write_rows rows' in (t +:+ rest, failure)
      end
  end.

(** [writeheader()] and [writerows(data)]: the header row, then one row
    for each lead. *)
Definition csv_written (data : list Lead) : string * option exn :=
  write_rows ((JStr <$> fieldnames) :: (row_values <$> data)).

(** [write_csv(filename, data)]: the file is created or overwritten when it
    is opened; what was written stays in it when a row raises, and the
    [print] comes after the file is closed. *)
Definition write_csv (filename : string) (data : list Lead) : action unit :=
  λ w,
  match open_error filename with
  | Some e => (w, Raise e)
  | None =>
      let '(text, failure) := csv_written data in
      let w := mkWorld (<[ filename := text ]> (files w)) (console w) in
      match failure with
      | Some e => (w, Raise e)
      | None =>
          print ("  Written " +:+ pretty (length data) +:+ " leads to "
                 +:+ filename) w
      end
  end.

(** The six [print] calls for one lead of the preview. *)
Definition preview_entry (i : nat) (lead : Lead) : action unit :=
  print (pretty i +:+ ". " +:+ title lead);;
  print ("   Phone: " +:+ phone lead +:+ " | Rating: "
         +:+ py_str (review_rating lead) +:+ rating_mark +:+ " ("
         +:+ py_str (review_count lead) +:+ " reviews)");;
  print ("   Category: " +:+ py_str (category lead));;
  print ("   Address: " +:+ py_str (address lead));;
  print ("   Maps: " +:+ py_str (google_maps_link lead));;
  print "".

(** [for i, lead in enumerate(data, i): ...] *)
Fixpoint preview (i : nat) (data : list Lead) : action unit :=
  match data with
  | [] => mret ()
  | lead :: data' => preview_entry i lead;; preview (S i) data'
  end.

(** [tier_counts[t]] after the counting loop. *)
Definition tier_count (t : Z) (leads : list Lead) : nat :=
  length (filter (λ l, tier l = t) leads).

(** Everything after the filter and the sort: the statistics, the three
    exports and the preview. *)
Definition report (leads : list Lead) : action unit :=
  print (Str.nl +:+
    "Filtered leads (no website, has reviews, has contact): "
    +:+ pretty (length leads));;
  print ("  Tier 1 (Emergency & High Value): "
         +:+ pretty (tier_count 1 leads));;
  print ("  Tier 2 (Visual & Booking):       "
         +:+ pretty (tier_count 2 leads));;
  print ("  Tier 3 (Other/Unclassified):     "
         +:+ pretty (tier_count 3 leads));;
  write_csv OUTPUT_ALL leads;;
  let tier1 := filter (λ l, tier l = 1) leads in
  write_csv OUTPUT_TIER1 tier1;;
  let tier2 := filter (λ l, tier l = 2) leads in
  write_csv OUTPUT_TIER2 tier2;;
  print (Str.nl +:+ "--- TOP 10 LEADS (Tier 1, by reviews) ---");;
  preview 1 (take 10 tier1).

(** [main()] from line 55 on, on the contents of the input file. *)
Definition process (content : string) : action unit :=
  entries ← eval (read_entries content);
  print ("Total scraped entries: " +:+ pretty (length entries));;
  leads ← eval (filter_leads entries);
  leads ← eval (sort_leads leads);
  report leads.

(** [main()], started on the file system [fs] with an empty console. *)
Definition main (fs : gmap string string) : world * outcome :=
  let w := mkWorld fs [] in
  match fs !! INPUT_FILE with
  | None =>
      match print ("ERROR: " +:+ INPUT_FILE
                   +:+ " not found. Run the scraper first.") w with
      | (w, Ok _) => (w, SysExit 1)
      | (w, Raise e) => (w, Uncaught e)
      end
  | Some content =>
      match process content w with
      | (w, Ok _) => (w, Completed)
      | (w, Raise e) => (w, Uncaught e)
      end
  end.

End Pipeline.

(** * The statements of the specification *)

(** ** Classifier *)

(** The search text in the specification's words: the title and all the
    category strings joined with single spaces, lowercased. *)
Definition search_text (title : string) (categories : list string) : string :=
  Str.lower (Str.join " " (title :: categories)).

(** [text] contains some keyword of [kws] as a substring. *)
Definition mentions (kws : list string) (text : string) : Prop :=
  ∃ kw pre post, kw ∈ kws ∧ text = pre +:+ kw +:+ post.

(** A keyword whose last character is not a space. *)
Definition ends_in_letter (kw : string) : Prop :=
  ∃ c, Str.last kw = Some c ∧ c ≠ " "%char.

(** ** Filter *)

(** The five values the loop body reads from an entry before it tests
    anything: [website], [review_count], [phone], [emails], [title]. *)
Record fields : Type := mkFields {
  f_website : string;
  f_review_count : json;
  f_phone : string;
  f_emails : json;
  f_title : string
}.

Definition read_fields (e : json) : result fields :=
  website ← (v ← Py.get e "web_site" JNull; Py.strip (Py.or v (JStr "")));
  review_count ← (v ← Py.get e "review_count" (JInt 0); Ok (Py.or v (JInt 0)));
  phone ← (v ← Py.get e "phone" JNull; Py.strip (Py.or v (JStr "")));
  emails ← (v ← Py.get e "emails" JNull; Ok (Py.or v (JArr [])));
  title ← (v ← Py.get e "title" JNull; Py.strip (Py.or v (JStr "")));
  Ok (mkFields website review_count phone emails title).

(** The three tests of the loop body: [true] when none of them skips the
    entry. *)
Definition passes (f : fields) : result bool :=
  if Str.nonempty (f_website f) then Ok false else
  few ← Py.lt (f_review_count f) 1;
  if few : bool then Ok false else
  Ok (negb (negb (Str.nonempty (f_phone f)) && negb (Py.truthy (f_emails f)))).

(** The dedup key of a title and a phone, both trimmed. *)
Definition dedup_key (title phone : string) : string :=
  title +:+ "|" +:+ phone.

(** The dict appended for an entry that is kept. *)
Definition build_lead (e : json) (f : fields) : result Lead :=
  categories ← (v ← Py.get e "categories" JNull; Ok (Py.or v (JArr [])));
  tier ← classify_tier (f_title f) categories;
  category ← Py.get e "category" (JStr "");
  emails_text ← (if Py.truthy (f_emails f) then Py.join "; " (f_emails f)
                 else Ok "");
  review_rating ← Py.get e "review_rating" (JInt 0);
  address ← Py.get e "address" (JStr "");
  link ← Py.get e "link" (JStr "");
  status ← Py.get e "status" (JStr "");
  Ok (mkLead tier (f_title f) category (f_phone f) emails_text
             (f_review_count f) review_rating address link status).

(** An entry that passes the three tests, with its dedup key. *)
Definition qualifies (e : json) (key : string) : Prop :=
  ∃ f, read_fields e = Ok f ∧ passes f = Ok true
       ∧ key = dedup_key (f_title f) (f_phone f).

(** The lead the loop body builds from an entry that passes the tests. *)
Definition produces (e : json) (x : Lead) : Prop :=
  ∃ f, read_fields e = Ok f ∧ passes f = Ok true ∧ build_lead e f = Ok x.

(** The dedup key as it can be read off a lead. *)
Definition lead_key (x : Lead) : string := dedup_key (title x) (phone x).

(** The inclusion predicates in the specification's words.  A text field
    that is absent or null reads as the empty text, and so does any other
    false value; a true value that is not a text has no reading. *)
Definition text_value (v : json) : option string :=
  match v with
  | JNull => Some ""
  | JStr s => Some s
  | _ => if Py.truthy v then None else Some ""
  end.







(** What the loop guarantees of its state after the entries [pre]. *)
Definition filter_inv (pre : list json) (st : list Lead * gset string) : Prop :=
  (∀ k, k ∈ st.2 ↔ ∃ e, e ∈ pre ∧ qualifies e k)
  ∧ NoDup (lead_key <$> st.1)
  ∧ (∀ x, x ∈ st.1 → lead_key x ∈ st.2)
  ∧ (∀ x, x ∈ st.1 → ∃ e, e ∈ pre ∧ produces e x).

(** ** Ranker *)

(** The sort key of a lead whose review count is a number. *)
Definition rank_key (x : Lead) : Z * num :=
  (tier x, Num.neg (default (NInt 0) (Py.number (review_count x)))).

(** The order [list.sort] leaves between neighbours: the right one is not
    below the left one. *)
Definition not_above {K A : Type} (lt : K → K → bool) (a b : K * A) : Prop :=
  lt b.1 a.1 = false.

(** The order of the specification between an earlier lead [a] and a later
    lead [b]: [a.tier < b.tier], or [a.tier == b.tier] and
    [a.review_count >= b.review_count]. *)
Definition in_order (a b : Lead) : Prop :=
  ∃ ra rb, Py.number (review_count a) = Some ra
           ∧ Py.number (review_count b) = Some rb
           ∧ (tier a < tier b
              ∨ (tier a = tier b ∧ Num.leb rb ra = true)).

(** Sort correctness in the specification's words: each lead and its right
    neighbour are in tier order, and within a tier in descending order of
    review count. *)
Definition ranked (l : list Lead) : Prop :=
  ∀ (i : nat) (a b : Lead),
    l !! i = Some a → l !! S i = Some b → in_order a b.

(** The earlier lead is of no higher tier than the later one. *)
Definition tier_le (a b : Lead) : Prop := tier a ≤ tier b.

(** The sort keys of tier [t] and review count [r]. *)
Definition key_is (t : Z) (r : num) (k : Z * num) : Prop :=
  k.1 = t ∧ Num.eqb k.2 (Num.neg r) = true.

#[global] Instance key_is_dec t r k : Decision (key_is t r k) :=
  and_dec _ _.

(** The review count of a lead equals the number [r], as [==] has it: 2
    equals 2.0, and NaN equals nothing. *)
Definition count_is (r : num) (x : Lead) : bool :=
  match Py.number (review_count x) with
  | Some v => Num.eqb v r
  | None => false
  end.

(** Stability: the leads of any one (tier, review count) come in the same
    order in both lists. *)
Definition same_order_within_ties (before after : list Lead) : Prop :=
  ∀ (t : Z) (r : num),
    filter (λ x, tier x = t ∧ count_is r x = true) after
    = filter (λ x, tier x = t ∧ count_is r x = true) before.

(** A lead whose review count is a number other than NaN. *)
Definition counted (x : Lead) : Prop :=
  ∃ n, Py.number (review_count x) = Some n ∧ Num.is_nan n = false.

(** A lead whose review count is a number, as [-x["review_count"]] needs,
    paired with its sort key. *)
Definition keyed_ok (p : (Z * num) * Lead) : Prop :=
  p.1 = rank_key p.2 ∧ is_Some (Py.number (review_count p.2)).

(** Uniqueness in the specification's words: two leads at different places
    of a list differ in their (title, phone) pair. *)
Definition unique_pairs (l : list Lead) : Prop :=
  ∀ (i j : nat) (a b : Lead),
    l !! i = Some a → l !! j = Some b → i ≠ j →
    (title a, phone a) ≠ (title b, phone b).

(** The review rating the specification states for a lead: the value of the
    field, and 0 when the field is absent or null. *)
Definition stated_review_rating (d : list (string * json)) : json :=
  match Py.lookup d "review_rating" with
  | None | Some JNull => JInt 0
  | Some v => v
  end.

(** ** Sample entries *)

(** An entry with a title, a phone and a review count, and nothing else. *)
Definition listing (title phone : string) (reviews : Z) : json :=
  JObj [("title", JStr title); ("phone", JStr phone);
        ("review_count", JInt reviews)].

(** The lead of [listing title phone reviews] in tier [t]. *)
Definition listing_lead (t : Z) (title phone : string) (reviews : Z) : Lead :=
  mkLead t title (JStr "") phone "" (JInt reviews) (JInt 0)
         (JStr "") (JStr "") (JStr "").

(** Scenario B of the specification. *)
Definition plumber_entry : json :=
  JObj [("title", JStr "Instalatii Popescu"); ("web_site", JStr "");
        ("review_count", JInt 5); ("phone", JStr "0722123456");
        ("categories", JArr [JStr "plumber"])].

Definition plumber_lead : Lead :=
  mkLead 1 "Instalatii Popescu" (JStr "") "0722123456" "" (JInt 5) (JInt 0)
         (JStr "") (JStr "") (JStr "").

(** Scenario C of the specification: the same title and phone twice, the
    second time with more reviews. *)
Definition salon_first : json := listing "ABC Salon" "0733000000" 3.
Definition salon_again : json := listing "ABC Salon" "0733000000" 40.

(** Two entries whose (title, phone) pairs differ and whose dedup keys are
    equal. *)
Definition bar_in_title : json := listing "A|B" "C" 1.
Definition bar_in_phone : json := listing "A" "B|C" 1.

(** An entry with a title, a phone and the review count NaN, which
    [json.loads] returns for the JSON text [NaN], and its lead. *)
Definition nan_listing (title phone : string) : json :=
  JObj [("title", JStr title); ("phone", JStr phone);
        ("review_count", JFloat FNaN)].

Definition nan_listing_lead (t : Z) (title phone : string) : Lead :=
  mkLead t title (JStr "") phone "" (JFloat FNaN) (JInt 0)
         (JStr "") (JStr "") (JStr "").

(** Three listings of tier 3 with 1, NaN and 5 reviews. *)
Definition nan_entries : list json :=
  [ listing "Bar" "1" 1; nan_listing "Cafe" "2"; listing "Inn" "3" 5 ].

Definition nan_leads : list Lead :=
  [ listing_lead 3 "Bar" "1" 1; nan_listing_lead 3 "Cafe" "2";
    listing_lead 3 "Inn" "3" 5 ].


Definition plumber_ion : Lead :=
  mkLead 1 "Plumber Ion" (JStr "") "6" "" (JFloat (FNum false 7 0)) (JInt 0)
         (JStr "") (JStr "") (JStr "").

Definition tied_leads : list Lead :=
  [ listing_lead 2 "Salon Ana" "1" 4; listing_lead 1 "Roof Fix" "2" 2;
    listing_lead 3 "Cafe" "3" 9; listing_lead 1 "Plumber Dan" "4" 7;
    listing_lead 1 "Roof Top" "5" 2; plumber_ion ].

Definition tied_sorted : list Lead :=
  [ listing_lead 1 "Plumber Dan" "4" 7; plumber_ion;
    listing_lead 1 "Roof Fix" "2" 2; listing_lead 1 "Roof Top" "5" 2;
    listing_lead 2 "Salon Ana" "1" 4; listing_lead 3 "Cafe" "3" 9 ].

(** Twelve tier-1 leads, told apart by their phones, and the same leads in
    descending order of reviews, ties in their first order. *)
Definition roofer (phone : string) (reviews : Z) : Lead :=
  listing_lead 1 "Roofer" phone reviews.

Definition roofers : list Lead :=
  [ roofer "a" 3; roofer "b" 1; roofer "c" 4; roofer "d" 1; roofer "e" 5;
    roofer "f" 9; roofer "g" 2; roofer "h" 6; roofer "i" 5; roofer "j" 3;
    roofer "k" 5; roofer "l" 8 ].

Definition roofers_sorted : list Lead :=
  [ roofer "f" 9; roofer "l" 8; roofer "h" 6; roofer "e" 5; roofer "i" 5;
    roofer "k" 5; roofer "c" 4; roofer "a" 3; roofer "j" 3; roofer "g" 2;
    roofer "b" 1; roofer "d" 1 ].

(** An entry whose review rating is null. *)
Definition unrated_fields : list (string * json) :=
  [("title", JStr "Cafe"); ("phone", JStr "1"); ("review_count", JInt 2);
   ("review_rating", JNull)].

Definition unrated_lead : Lead :=
  mkLead 3 "Cafe" (JStr "") "1" "" (JInt 2) JNull (JStr "") (JStr "") (JStr "").

(** ** Loader *)

(** What one line adds to the entries: a blank line nothing, a line on
    which the parser reports a decode error nothing, a line that parses its
    record; a line on which the parser raises another exception ends the
    loading. *)
Definition line_records (json_loads : string → parsed) (line : string)
  : result (list json) :=
  if Str.blank line then Ok []
  else match json_loads (Str.strip line) with
       | DecodeError => Ok []
       | Parsed record => Ok [record]
       | OtherError e => Raise e
       end.

(** The records of a sequence of lines, in line order. *)
Fixpoint records (json_loads : string → parsed) (lines : list string)
  : result (list json) :=
  match lines with
  | [] => Ok []
  | line :: lines' =>
      r ← line_records json_loads line;
      rs ← records json_loads lines';
      Ok (r ++ rs)
  end.

(** A line fails to parse when [json.loads] returns no value for it. *)
Definition fails_to_parse (json_loads : string → parsed) (line : string)
  : Prop :=
  ∀ v, json_loads (Str.strip line) ≠ Parsed v.

(** Every character of [s] satisfies [P]. *)
Fixpoint all_chars (P : ascii → bool) (s : string) : bool :=
  match s with
  | EmptyString => true
  | String c s' => P c && all_chars P s'
  end.

(** A text of [n] digits. *)
Fixpoint digits (n : nat) : string :=
  match n with
  | O => EmptyString
  | S n' => String "1" (digits n')
  end.

(** A decimal digit. *)
Definition is_digit (c : ascii) : bool :=
  let n := N_of_ascii c in ((48 <=? n) && (n <=? 57))%N.

(** ** Whole runs *)

(** The three export files. *)
Definition outputs : list string := [OUTPUT_ALL; OUTPUT_TIER1; OUTPUT_TIER2].

(** Stand-ins for Python's library in the sample runs.  [sample_loads] is
    [json.loads] on the lines [5], [null] and [[]], on lines of more than
    4300 digits, the most [int()] converts, and on lines that are not JSON;
    [sample_row] is the csv writer on rows of texts that need no quoting and
    of integers; [sample_read] reads a file of ASCII characters;
    [ascii_stdout] is a standard output whose encoding is ASCII. *)
Definition sample_loads (line : string) : parsed :=
  if String.eqb line "5" then Parsed (JInt 5)
  else if String.eqb line "null" then Parsed JNull
  else if String.eqb line "[]" then Parsed (JArr [])
  else if all_chars is_digit line && (4300 <? String.length line)%nat
  then OtherError ValueError
  else DecodeError.

Definition sample_read (contents : string) : string * option exn :=
  (contents, None).

Definition no_error (_ : string) : option exn := None.

Definition ascii_stdout (text : string) : option exn :=
  if all_chars (λ c, (N_of_ascii c <? 128)%N) text then None
  else Some UnicodeEncodeError.

Definition sample_str (v : json) : string :=
  match v with
  | JStr s => s
  | JInt n => pretty n
  | _ => ""
  end.

(** The UTF-8 encoding of a text over code points 0..255. *)
Fixpoint utf8 (s : string) : string :=
  match s with
  | EmptyString => EmptyString
  | String c s' =>
      let n := N_of_ascii c in
      if (n <? 128)%N then String c (utf8 s')
      else String (ascii_of_N (192 + N.shiftr n 6))
             (String (ascii_of_N (128 + N.land n 63)) (utf8 s'))
  end.

Definition sample_row (row : list json) : result string :=
  Ok (utf8 (Str.join "," (sample_str <$> row))
      +:+ String "013" (String "010" "")).

(** The script on the stand-ins. *)
Definition sample_main : gmap string string → world * outcome :=
  main sample_read sample_loads sample_row sample_str no_error no_error.



(** ** Records of the data model *)

(** A text field as the data model has it: absent, null or a string. *)
Definition text_or_absent (o : option json) : Prop :=
  match o with
  | None | Some JNull | Some (JStr _) => True
  | Some _ => False
  end.

(** A count: absent, null or an integer. *)
Definition count_or_absent (o : option json) : Prop :=
  match o with
  | None | Some JNull | Some (JInt _) => True
  | Some _ => False
  end.

(** A sequence of strings: absent, null or a list of strings. *)
Definition texts_or_absent (o : option json) : Prop :=
  match o with
  | None | Some JNull => True
  | Some (JArr l) => ∃ ss : list string, l = JStr <$> ss
  | Some _ => False
  end.

(** An entry whose fields of interest have the types of the data model. *)
Definition well_typed (e : json) : Prop :=
  ∃ d, e = JObj d
    ∧ text_or_absent (Py.lookup d "web_site")
    ∧ count_or_absent (Py.lookup d "review_count")
    ∧ text_or_absent (Py.lookup d "phone")
    ∧ texts_or_absent (Py.lookup d "emails")
    ∧ text_or_absent (Py.lookup d "title")
    ∧ texts_or_absent (Py.lookup d "categories").

(** ** Further notions *)

(** The order the sort leaves between an earlier and a later lead. *)
Definition rank_le (a b : Lead) : Prop :=
  key_lt (rank_key b) (rank_key a) = false.

(** [tier1[:10]], the leads of the preview. *)
Definition top_tier1 (leads : list Lead) : list Lead :=
  take 10 (filter (λ l, tier l = 1) leads).

(** The six texts the preview prints for the lead numbered [i]. *)
Definition preview_block (py_str : json → string) (i : nat) (lead : Lead)
  : list string :=
  [ pretty i +:+ ". " +:+ title lead;
    "   Phone: " +:+ phone lead +:+ " | Rating: "
      +:+ py_str (review_rating lead) +:+ rating_mark +:+ " ("
      +:+ py_str (review_count lead) +:+ " reviews)";
    "   Category: " +:+ py_str (category lead);
    "   Address: " +:+ py_str (address lead);
    "   Maps: " +:+ py_str (google_maps_link lead);
    "" ].

(** The texts a report prints when no step of it raises: eight lines of
    summary, then the preview. *)
Definition report_texts (py_str : json → string) (leads : list Lead)
  : list string :=
  [ Str.nl +:+ "Filtered leads (no website, has reviews, has contact): "
      +:+ pretty (length leads);
    "  Tier 1 (Emergency & High Value): " +:+ pretty (tier_count 1 leads);
    "  Tier 2 (Visual & Booking):       " +:+ pretty (tier_count 2 leads);
    "  Tier 3 (Other/Unclassified):     " +:+ pretty (tier_count 3 leads);
    "  Written " +:+ pretty (length leads) +:+ " leads to " +:+ OUTPUT_ALL;
    "  Written " +:+ pretty (length (filter (λ l, tier l = 1) leads))
      +:+ " leads to " +:+ OUTPUT_TIER1;
    "  Written " +:+ pretty (length (filter (λ l, tier l = 2) leads))
      +:+ " leads to " +:+ OUTPUT_TIER2;
    Str.nl +:+ "--- TOP 10 LEADS (Tier 1, by reviews) ---" ]
  ++ concat (imap (λ k, preview_block py_str (S k)) (top_tier1 leads)).

(** The files after the three exports are written over the files [fs]:
    the header row [h], then the rows of all the leads, of the tier-1 leads
    and of the tier-2 leads. *)
Definition exported (h rows rows1 rows2 : string) (fs : gmap string string)
  : gmap string string :=
  <[ OUTPUT_TIER2 := h +:+ rows2 ]>
    (<[ OUTPUT_TIER1 := h +:+ rows1 ]>
       (<[ OUTPUT_ALL := h +:+ rows ]> fs)).

(** A library call that never raises, and a csv writer that can write
    every row. *)
Definition never (error : string → option exn) : Prop :=
  ∀ s, error s = None.

Definition writer_ok (csv_row : list json → result string) : Prop :=
  ∀ row, ∃ t, csv_row row = Ok t.

(** A text with every line feed turned into carriage return, line feed. *)
Fixpoint to_crlf (s : string) : string :=
  match s with
  | EmptyString => EmptyString
  | String c s' =>
      if Ascii.eqb c "010" then String "013" (String "010" (to_crlf s'))
      else String c (to_crlf s')
  end.

(** A value that is true in Python and is not a [str]. *)
Definition true_non_text (v : json) : Prop :=
  Py.truthy v = true ∧ ∀ s, v ≠ JStr s.

(** An entry with a web site and a review count that is a text. *)
Definition site_entry : json :=
  JObj [("title", JStr "Shop"); ("web_site", JStr "http://shop.example");
        ("review_count", JStr "many"); ("phone", JStr "1")].

(** The same entry without the web site. *)
Definition text_count_entry : json :=
  JObj [("title", JStr "Shop"); ("review_count", JStr "many");
        ("phone", JStr "1")].

(** An entry whose phone is a number. *)
Definition number_phone_entry : json :=
  JObj [("title", JStr "Shop"); ("web_site", JStr "http://shop.example");
        ("phone", JInt 722)].

(** Three listings in three tiers and one more tier-1 listing. *)
Definition mixed_entries : list json :=
  [ listing "Salon Ana" "1" 4; listing "Roof Fix" "2" 2;
    listing "Cafe" "3" 9; listing "Plumber Dan" "4" 7 ].

Definition mixed_sorted : list Lead :=
  [ listing_lead 1 "Plumber Dan" "4" 7; listing_lead 1 "Roof Fix" "2" 2;
    listing_lead 2 "Salon Ana" "1" 4; listing_lead 3 "Cafe" "3" 9 ].

(** The rows of the leads [data], one after the other, when the csv writer
    can write each of them. *)
Fixpoint csv_rows (csv_row : list json → result string) (data : list Lead)
  : result string :=
  match data with
  | [] => Ok ""
  | x :: data' =>
      t ← csv_row (row_values x);
      rest ← csv_rows csv_row data';
      Ok (t +:+ rest)
  end.

(** An action changes files by laying some export files over the files it
    finds; which ones, what it prints and how it ends do not depend on the
    files it finds. *)
Definition framed {A : Type} (a : action A) : Prop :=
  ∀ c : list string, ∃ (written : gmap string string) c' r,
    (∀ name, is_Some (written !! name) → name ∈ outputs)
    ∧ ∀ fs, a (mkWorld fs c) = (mkWorld (written ∪ fs) c', r).

(** A character other than the line feed, and other than the carriage
    return. *)
Definition not_lf (c : ascii) : bool := negb (Ascii.eqb c "010").
Definition not_cr (c : ascii) : bool := negb (Ascii.eqb c "013").

(** A line as the file iterator yields it: not empty, with no line feed
    before its last character. *)
Definition is_line (line : string) : Prop :=
  ∃ body c, line = body +:+ String c "" ∧ all_chars not_lf body = true.

(** [s] between double quotes. *)
Definition quoted (s : string) : string :=
  String "034" s +:+ String "034" "".

(** The JSON text of [listing title phone reviews], for a title and a phone
    that need no escaping. *)
Definition listing_line (title phone : string) (reviews : Z) : string :=
  "{" +:+ quoted "title" +:+ ": " +:+ quoted title +:+ ", "
  +:+ quoted "phone" +:+ ": " +:+ quoted phone +:+ ", "
  +:+ quoted "review_count" +:+ ": " +:+ pretty reviews +:+ "}".

(** A stand-in for [json.loads] on the JSON texts of the four listings of
    [mixed_entries]; the sample input below holds no other line. *)
Definition listing_loads (line : string) : parsed :=
  match
    Py.lookup
      [ (listing_line "Salon Ana" "1" 4, listing "Salon Ana" "1" 4);
        (listing_line "Roof Fix" "2" 2, listing "Roof Fix" "2" 2);
        (listing_line "Cafe" "3" 9, listing "Cafe" "3" 9);
        (listing_line "Plumber Dan" "4" 7, listing "Plumber Dan" "4" 7) ]
      line
  with
  | Some v => Parsed v
  | None => DecodeError
  end.

(** The script on the four listings. *)
Definition listing_main : gmap string string → world * outcome :=
  main sample_read listing_loads sample_row sample_str no_error no_error.

(** An input file with the four listings, one on each line. *)
Definition mixed_text : string :=
  listing_line "Salon Ana" "1" 4 +:+ Str.nl
  +:+ listing_line "Roof Fix" "2" 2 +:+ Str.nl
  +:+ listing_line "Cafe" "3" 9 +:+ Str.nl
  +:+ listing_line "Plumber Dan" "4" 7 +:+ Str.nl.

(** A tier-1 listing whose title holds a letter outside ASCII, its JSON
    text, and the script on it with a standard output that encodes ASCII
    only. *)
Definition cafe_title : string := "Caf" +:+ String "233" " Roof".

Definition cafe_line : string :=
  "{" +:+ quoted "title" +:+ ": " +:+ quoted "Caf\u00e9 Roof" +:+ ", "
  +:+ quoted "phone" +:+ ": " +:+ quoted "7" +:+ ", "
  +:+ quoted "review_count" +:+ ": 3}".

Definition cafe_loads (line : string) : parsed :=
  if String.eqb line cafe_line then Parsed (listing cafe_title "7" 3)
  else DecodeError.

Definition cafe_main : gmap string string → world * outcome :=
  main sample_read cafe_loads sample_row sample_str no_error ascii_stdout.

(** An entry whose [emails] is one string instead of a list of strings. *)
Definition text_emails_fields : list (string * json) :=
  [("title", JStr "Cafe"); ("review_count", JInt 2); ("emails", JStr "a@b")].

Definition text_emails_lead : Lead :=
  mkLead 3 "Cafe" (JStr "") "" "a; @; b" (JInt 2) (JInt 0)
         (JStr "") (JStr "") (JStr "").

(** * Properties *)

(** ** Numbers *)

Module NumFacts.
Import Num.

Lemma Qcompare_refl q : QArith_base.Qcompare q q = Eq.
Proof. apply QArith_base.Qeq_alt. apply QArith_base.Qeq_refl. Qed.

Lemma Qcompare_opp p q :
  QArith_base.Qcompare (QArith_base.Qopp p) (QArith_base.Qopp q)
  = QArith_base.Qcompare q p.
Proof.
  unfold QArith_base.Qcompare, QArith_base.Qopp. simpl.
  rewrite !Z.mul_opp_l. apply Z.compare_opp.
Qed.

Lemma ext_compare_refl a : ext_compare a a = Eq.
Proof. destruct a; simpl; auto using Qcompare_refl. Qed.

Lemma ext_compare_antisym a b : ext_compare b a = CompOpp (ext_compare a b).
Proof.
  destruct a, b; simpl; try done. symmetry. apply QArith_base.Qcompare_antisym.
Qed.

Lemma ext_compare_opp a b :
  ext_compare (ext_opp a) (ext_opp b) = ext_compare b a.
Proof. destruct a, b; simpl; try done. apply Qcompare_opp. Qed.

Lemma ext_lt_trans a b c :
  ext_compare a b = Lt → ext_compare b c = Lt → ext_compare a c = Lt.
Proof.
  destruct a, b, c; simpl; try done.
  rewrite <-!QArith_base.Qlt_alt. apply QArith_base.Qlt_trans.
Qed.

Lemma ext_le_trans a b c :
  ext_compare a b ≠ Gt → ext_compare b c ≠ Gt → ext_compare a c ≠ Gt.
Proof.
  destruct a, b, c; simpl; try done.
  rewrite <-!QArith_base.Qle_alt. apply QArith_base.Qle_trans.
Qed.

Lemma ext_eq_lt a b c :
  ext_compare a b = Eq → ext_compare a c = ext_compare b c.
Proof.
  destruct a, b, c; simpl; try done.
  intros H%QArith_base.Qeq_alt. by rewrite H.
Qed.

Lemma value_neg x : value (neg x) = ext_opp <$> value x.
Proof.
  destruct x as [n|[|[]|[]|s m e]]; try done.
  simpl. do 2 f_equal. unfold dyadic.
  destruct e as [|p|p], s; simpl; try done; unfold QArith_base.Qopp; simpl;
    f_equal; by rewrite <-Z.mul_opp_l.
Qed.

Lemma compare_neg x y : compare (neg x) (neg y) = compare y x.
Proof.
  unfold compare. rewrite !value_neg.
  destruct (value x), (value y); simpl; try done.
  by rewrite ext_compare_opp.
Qed.

Lemma compare_int a b : compare (NInt a) (NInt b) = Some (a ?= b).
Proof.
  unfold compare. simpl. unfold QArith_base.Qcompare. simpl.
  by rewrite !Z.mul_1_r.
Qed.

Lemma compare_antisym x y : compare y x = CompOpp <$> compare x y.
Proof.
  unfold compare. destruct (value x), (value y); simpl; try done.
  by rewrite ext_compare_antisym.
Qed.

Lemma compare_nan x y :
  compare x y = None ↔ is_nan x = true ∨ is_nan y = true.
Proof.
  unfold compare.
  destruct x as [n|[| | |]], y as [n'|[| | |]]; simpl;
    (split; [try done; auto|intros [?|?]; done]).
Qed.

Lemma ltb_irrefl x : ltb x x = false.
Proof.
  unfold ltb, compare. destruct (value x); [|done].
  by rewrite ext_compare_refl.
Qed.

Lemma ltb_asym x y : ltb x y = true → ltb y x = false.
Proof.
  unfold ltb. rewrite (compare_antisym x y).
  by destruct (compare x y) as [[]|].
Qed.

Lemma ltb_trans x y z : ltb x y = true → ltb y z = true → ltb x z = true.
Proof.
  unfold ltb, compare.
  destruct (value x) as [a|], (value y) as [b|], (value z) as [c|]; try done.
  destruct (ext_compare a b) eqn:Hab; try done.
  destruct (ext_compare b c) eqn:Hbc; try done.
  by rewrite (ext_lt_trans _ _ _ Hab Hbc).
Qed.

Lemma ltb_neg x y : ltb (neg x) (neg y) = ltb y x.
Proof. unfold ltb. by rewrite compare_neg. Qed.

Lemma leb_trans x y z : leb x y = true → leb y z = true → leb x z = true.
Proof.
  unfold leb, compare.
  destruct (value x) as [a|], (value y) as [b|], (value z) as [c|]; try done.
  intros Hab Hbc.
  pose proof (ext_le_trans a b c) as H.
  destruct (ext_compare a b), (ext_compare b c), (ext_compare a c);
    try done; exfalso; by apply H.
Qed.

(** Among numbers that are not NaN the order is total. *)
Lemma ltb_false x y :
  is_nan x = false → is_nan y = false → ltb x y = false → leb y x = true.
Proof.
  intros Hx Hy. unfold ltb, leb. rewrite (compare_antisym x y).
  destruct (compare x y) as [[]|] eqn:Hc; try done.
  apply compare_nan in Hc as [?|?]; congruence.
Qed.

Lemma leb_not_ltb x y : leb y x = true → ltb x y = false.
Proof.
  unfold ltb, leb. rewrite (compare_antisym x y).
  by destruct (compare x y) as [[]|].
Qed.

Lemma leb_not_nan x y :
  leb x y = true → is_nan x = false ∧ is_nan y = false.
Proof.
  unfold leb. destruct (compare x y) eqn:Hc; [|done]. intros _.
  destruct (is_nan x) eqn:Hx, (is_nan y) eqn:Hy; try done;
    assert (compare x y = None) by (apply compare_nan; auto); congruence.
Qed.

(** Numbers equal to one number are not below each other. *)
Lemma eqb_not_ltb x y k : eqb x k = true → eqb y k = true → ltb x y = false.
Proof.
  unfold eqb, ltb, compare.
  destruct (value x) as [a|], (value y) as [b|], (value k) as [c|]; try done.
  destruct (ext_compare a c) eqn:Hac; try done.
  destruct (ext_compare b c) eqn:Hbc; try done. intros _ _.
  rewrite (ext_eq_lt _ _ b Hac), ext_compare_antisym, Hbc. done.
Qed.

Lemma eqb_neg x y : eqb (neg x) (neg y) = eqb x y.
Proof.
  unfold eqb. rewrite compare_neg, (compare_antisym x y).
  by destruct (compare x y) as [[]|].
Qed.

(** [x < y] is false when [y <= x], and when one of the two is NaN. *)
Lemma ltb_false_cases x y :
  ltb x y = false ↔ leb y x = true ∨ is_nan x = true ∨ is_nan y = true.
Proof.
  split.
  - intros H. destruct (is_nan x) eqn:Hx; [auto|].
    destruct (is_nan y) eqn:Hy; [auto|]. left. by apply ltb_false.
  - intros [H|H]; [by apply leb_not_ltb|].
    apply compare_nan in H. unfold ltb. by rewrite H.
Qed.

Lemma is_nan_eq x : is_nan x = true ↔ x = NFloat FNaN.
Proof. destruct x as [n|[| | |]]; simpl; split; done. Qed.

(** A number that is not below an [int] is at least that [int], or NaN. *)
Lemma not_below_int x n :
  ltb x (NInt n) = false ↔ leb (NInt n) x = true ∨ x = NFloat FNaN.
Proof.
  rewrite ltb_false_cases, <-is_nan_eq. simpl. intuition congruence.
Qed.

Lemma leb_antisym x y : leb x y = true → leb y x = true → eqb x y = true.
Proof.
  unfold leb, eqb. rewrite (compare_antisym x y).
  by destruct (compare x y) as [[]|].
Qed.

Lemma eqb_refl x : is_nan x = false → eqb x x = true.
Proof.
  intros Hx. unfold eqb, compare.
  destruct (value x) as [a|] eqn:Ha; [by rewrite ext_compare_refl|].
  by destruct x as [n|[| | |]].
Qed.

Lemma leb_int a b : leb (NInt a) (NInt b) = (a <=? b).
Proof.
  unfold leb. rewrite compare_int.
  destruct (Z.compare_spec a b); symmetry; [apply Z.leb_le|apply Z.leb_le|apply Z.leb_gt]; lia.
Qed.

Lemma ltb_int a b : ltb (NInt a) (NInt b) = (a <? b).
Proof.
  unfold ltb. rewrite compare_int.
  destruct (Z.compare_spec a b); symmetry; [apply Z.ltb_ge|apply Z.ltb_lt|apply Z.ltb_ge]; lia.
Qed.

End NumFacts.

(** ** Strings *)

Module StrFacts.
Import Str.

Lemma append_cons a s t : String a s +:+ t = String a (s +:+ t).
Proof. reflexivity. Qed.

Lemma append_nil_r s : s +:+ "" = s.
Proof. induction s as [|a s IH]; [done|]. by rewrite append_cons, IH. Qed.

Lemma append_assoc s t u : (s +:+ t) +:+ u = s +:+ t +:+ u.
Proof. induction s as [|a s IH]; [done|]. by rewrite !append_cons, IH. Qed.

Lemma nonempty_false s : nonempty s = false ↔ s = "".
Proof. by destruct s. Qed.

Lemma nonempty_true s : nonempty s = true ↔ s ≠ "".
Proof. by destruct s. Qed.

Lemma lower_app s t : lower (s +:+ t) = lower s +:+ lower t.
Proof. induction s as [|a s IH]; [done|]. by rewrite append_cons; simpl; rewrite IH. Qed.

(** [startswith] and [contains] decide the prefix and substring relations. *)
Lemma startswith_spec kw text :
  startswith kw text = true ↔ ∃ post, text = kw +:+ post.
Proof.
  revert text. induction kw as [|a kw IH]; intros text; simpl.
  - split; [intros _; by exists text|done].
  - destruct text as [|b text].
    + split; [done|]. by intros [post Hpost].
    + rewrite andb_true_iff, Ascii.eqb_eq, IH. split.
      * intros [-> [post ->]]. by exists post.
      * intros [post Hpost]. rewrite append_cons in Hpost.
        injection Hpost as -> ->. eauto.
Qed.

Lemma contains_spec kw text :
  contains kw text = true ↔ ∃ pre post, text = pre +:+ kw +:+ post.
Proof.
  induction text as [|b text IH]; simpl; rewrite orb_true_iff, startswith_spec.
  - split.
    + intros [[post ->]|]; [|done]. by exists "", post.
    + intros (pre & post & H). left. destruct pre; [by exists post|done].
  - rewrite IH. split.
    + intros [[post ->]|(pre & post & ->)]; [by exists "", post|].
      by exists (String b pre), post.
    + intros (pre & post & H). destruct pre as [|c pre].
      * left. by exists post.
      * right. rewrite append_cons in H. injection H as -> ->. eauto.
Qed.

(** A keyword that does not end in a space is found in [text ␣] exactly
    when it is found in [text]. *)
Lemma startswith_trailing_space kw c text :
  last kw = Some c → c ≠ " "%char →
  startswith kw (text +:+ " ") = startswith kw text.
Proof.
  intros Hlast Hc. revert text. induction kw as [|a kw IH]; [done|].
  intros [|b text].
  - change ("" +:+ " ") with " ". simpl. destruct kw as [|a' kw].
    + simpl in Hlast. injection Hlast as ->.
      by apply Ascii.eqb_neq in Hc as ->.
    + by rewrite andb_false_r.
  - rewrite append_cons. simpl. destruct kw as [|a' kw]; [done|].
    by rewrite IH.
Qed.

Lemma contains_trailing_space kw c text :
  last kw = Some c → c ≠ " "%char →
  contains kw (text +:+ " ") = contains kw text.
Proof.
  intros Hlast Hc. induction text as [|b text IH].
  - change ("" +:+ " ") with " ". simpl.
    rewrite (startswith_trailing_space kw c "" Hlast Hc : startswith kw " " = _).
    by destruct (startswith kw "").
  - rewrite append_cons. simpl. rewrite IH.
    change (String b (text +:+ " ")) with (String b text +:+ " ").
    by rewrite (startswith_trailing_space kw c).
Qed.

Lemma rstrip_empty s : rstrip s = "" ↔ blank s = true.
Proof.
  induction s as [|c s IH]; simpl; [done|].
  rewrite andb_true_iff, <-IH.
  destruct (rstrip s), (isspace c); intuition congruence.
Qed.

Lemma blank_lstrip s : blank (lstrip s) = blank s.
Proof.
  induction s as [|c s IH]; simpl; [done|].
  destruct (isspace c) eqn:Hc; simpl; [done|by rewrite Hc].
Qed.

Lemma strip_empty s : strip s = "" ↔ blank s = true.
Proof. unfold strip. by rewrite rstrip_empty, blank_lstrip. Qed.

End StrFacts.

(** ** Classifier *)

Section Classifier.
Import Str StrFacts.

Lemma strs_of_strings (l : list string) : Py.strs (JStr <$> l) = Ok l.
Proof. induction l as [|s l IH]; [done|]. rewrite fmap_cons. simpl. by rewrite IH. Qed.

Lemma any_keyword_spec kws text :
  any_keyword kws text = true ↔ mentions kws text.
Proof.
  unfold any_keyword, mentions. rewrite existsb_exists. split.
  - intros (kw & Hin & (pre & post & ->)%contains_spec).
    exists kw, pre, post. by rewrite list_elem_of_In.
  - intros (kw & pre & post & Hin & ->). exists kw.
    rewrite <-list_elem_of_In, contains_spec. eauto.
Qed.

Lemma any_keyword_not_spec kws text :
  any_keyword kws text = false ↔ ¬ mentions kws text.
Proof. rewrite <-any_keyword_spec. by destruct (any_keyword kws text). Qed.

(** No keyword of the two lists ends in a space. *)
Lemma tier1_keywords_end_in_letter : Forall ends_in_letter TIER1_KEYWORDS.
Proof. repeat constructor; eexists; (split; [reflexivity|discriminate]). Qed.

Lemma tier2_keywords_end_in_letter : Forall ends_in_letter TIER2_KEYWORDS.
Proof. repeat constructor; eexists; (split; [reflexivity|discriminate]). Qed.

Lemma any_keyword_trailing_space kws text :
  Forall ends_in_letter kws →
  any_keyword kws (text +:+ " ") = any_keyword kws text.
Proof.
  unfold any_keyword. induction 1 as [|kw kws (c & Hlast & Hc) _ IH]; [done|].
  simpl. by rewrite IH, (contains_trailing_space kw c).
Qed.

Lemma tier_of_text_trailing_space text :
  tier_of_text (text +:+ " ") = tier_of_text text.
Proof.
  unfold tier_of_text.
  by rewrite !any_keyword_trailing_space
    by auto using tier1_keywords_end_in_letter, tier2_keywords_end_in_letter.
Qed.

(** On a title and a list of category strings the classifier returns the
    tier of the specification's search text. *)
Lemma classify_tier_search_text title (categories : list string) :
  classify_tier title (JArr (JStr <$> categories))
  = Ok (tier_of_text (search_text title categories)).
Proof.
  unfold classify_tier, search_text. simpl. rewrite strs_of_strings. simpl.
  f_equal. destruct categories as [|c cs]; [|done].
  simpl. change (" " +:+ "") with " ".
  by rewrite lower_app, tier_of_text_trailing_space.
Qed.

(** C2: for every title and every sequence of category strings
    [classify_tier] returns (it is total, and as a function deterministic)
    exactly one of 1, 2 and 3: 1 exactly when the lowercased text joining the
    title and the categories with single spaces contains a tier-1 keyword, 2
    exactly when it contains no tier-1 keyword but a tier-2 keyword, and 3
    exactly when it contains neither. *)
Theorem classify_tier_exact (title : string) (categories : list string) :
  ∃ t : Z,
    classify_tier title (JArr (JStr <$> categories)) = Ok t
    ∧ (t = 1 ∨ t = 2 ∨ t = 3)
    ∧ (t = 1 ↔ mentions TIER1_KEYWORDS (search_text title categories))
    ∧ (t = 2 ↔ ¬ mentions TIER1_KEYWORDS (search_text title categories)
               ∧ mentions TIER2_KEYWORDS (search_text title categories))
    ∧ (t = 3 ↔ ¬ mentions TIER1_KEYWORDS (search_text title categories)
               ∧ ¬ mentions TIER2_KEYWORDS (search_text title categories)).
Proof.
  exists (tier_of_text (search_text title categories)).
  split; [apply classify_tier_search_text|].
  generalize (search_text title categories) as text. intros text.
  unfold tier_of_text.
  destruct (any_keyword TIER1_KEYWORDS text) eqn:H1;
    [apply any_keyword_spec in H1|apply any_keyword_not_spec in H1];
    (destruct (any_keyword TIER2_KEYWORDS text) eqn:H2;
      [apply any_keyword_spec in H2|apply any_keyword_not_spec in H2]);
    intuition (try lia).
Qed.

End Classifier.

(** ** The result monad *)

Lemma bind_Ok {A B} (m : result A) (k : A → result B) b :
  (m ≫= k) = Ok b ↔ ∃ a, m = Ok a ∧ k a = Ok b.
Proof.
  destruct m as [a|err]; simpl; split; eauto.
  - by intros (a' & [= ->] & ?).
  - done.
  - by intros (? & ? & ?).
Qed.

(** Splits a hypothesis [m ≫= k = Ok b] until no bind is left. *)
Ltac split_binds H :=
  repeat
    (let a := fresh "a" in
     let Ha := fresh "Ha" in
     apply bind_Ok in H as (a & Ha & H)).

(** ** Filter: the loop body and its invariant *)

Section FilterLoop.
Import Str StrFacts.

(** The loop body, cut at its [continue] statements. *)
Lemma filter_entry_eq leads seen e :
  filter_entry (leads, seen) e =
    f ← read_fields e;
    ok ← passes f;
    if ok : bool then
      if bool_decide (dedup_key (f_title f) (f_phone f) ∈ seen)
      then Ok (leads, seen)
      else x ← build_lead e f;
           Ok (leads ++ [x], seen ∪ {[ dedup_key (f_title f) (f_phone f) ]})
    else Ok (leads, seen).
Proof.
  unfold filter_entry, read_fields, passes, build_lead.
  destruct e as [| | | | | |d]; try done. simpl.
  destruct (Py.strip (Py.or (default JNull (Py.lookup d "web_site")) _))
    as [website|]; simpl; [|done].
  destruct (Py.strip (Py.or (default JNull (Py.lookup d "phone")) _))
    as [phone|]; simpl; [|done].
  destruct (Py.strip (Py.or (default JNull (Py.lookup d "title")) _))
    as [title|]; simpl; [|done].
  destruct (nonempty website); simpl; [done|].
  destruct (Py.lt _ 1) as [[]|]; simpl; [done| |done].
  destruct (negb (nonempty phone) && negb _); simpl; [done|].
  destruct (bool_decide _); simpl; [done|].
  destruct (classify_tier title _); simpl; [|done].
  by destruct (if Py.truthy _ then _ else _).
Qed.

(** The three ways a turn of the loop can end without raising: the entry is
    skipped by a test, dropped as a duplicate, or appended. *)
Lemma filter_entry_cases leads seen e st' :
  filter_entry (leads, seen) e = Ok st' →
  ∃ f, read_fields e = Ok f ∧
    ((passes f = Ok false ∧ st' = (leads, seen))
     ∨ (passes f = Ok true
        ∧ dedup_key (f_title f) (f_phone f) ∈ seen ∧ st' = (leads, seen))
     ∨ (passes f = Ok true
        ∧ (dedup_key (f_title f) (f_phone f) ∉ seen)
        ∧ (∃ x, build_lead e f = Ok x
                ∧ st' = (leads ++ [x],
                         seen ∪ {[ dedup_key (f_title f) (f_phone f) ]})))).
Proof.
  rewrite filter_entry_eq. intros H.
  apply bind_Ok in H as (f & Hf & H). exists f. split; [done|].
  apply bind_Ok in H as ([] & Hp & H).
  - case_bool_decide as Hseen.
    + right; left. by injection H as <-.
    + right; right. apply bind_Ok in H as (x & Hx & [= <-]). eauto.
  - left. by injection H as <-.
Qed.

Lemma filter_loop_app st l1 l2 :
  filter_loop st (l1 ++ l2) = st' ← filter_loop st l1; filter_loop st' l2.
Proof.
  revert st. induction l1 as [|e l1 IH]; intros st; [done|].
  simpl. destruct (filter_entry st e) as [st1|]; simpl; [apply IH|done].
Qed.

Lemma filter_loop_snoc st l e :
  filter_loop st (l ++ [e]) = st' ← filter_loop st l; filter_entry st' e.
Proof.
  rewrite filter_loop_app. destruct (filter_loop st l) as [st1|]; [|done].
  simpl. by destruct (filter_entry st1 e).
Qed.

(** A lead carries the title, the phone and the review count read from its
    entry. *)
Lemma build_lead_fields e f x :
  build_lead e f = Ok x →
  title x = f_title f ∧ phone x = f_phone f
  ∧ review_count x = f_review_count f.
Proof.
  unfold build_lead. intros H. split_binds H. by injection H as <-.
Qed.

Lemma build_lead_key e f x :
  build_lead e f = Ok x → lead_key x = dedup_key (f_title f) (f_phone f).
Proof.
  intros (Ht & Hp & _)%build_lead_fields. unfold lead_key. by rewrite Ht, Hp.
Qed.

Lemma filter_loop_inv pre st :
  filter_loop ([], ∅) pre = Ok st → filter_inv pre st.
Proof.
  revert st. induction pre as [|e pre IH] using rev_ind; intros st.
  - intros [= <-]. unfold filter_inv; simpl. split_and!.
    + intros k. split; [by intros ?%not_elem_of_empty|].
      intros (e & He & _). by apply elem_of_nil in He.
    + constructor.
    + intros x Hx. by apply elem_of_nil in Hx.
    + intros x Hx. by apply elem_of_nil in Hx.
  - rewrite filter_loop_snoc. intros ([leads seen] & Hpre & He)%bind_Ok.
    destruct (IH _ Hpre) as (Hseen & Hnodup & Hkeys & Hfrom). simpl in *.
    assert (Hold : ∀ x, x ∈ leads → ∃ e', e' ∈ pre ++ [e] ∧ produces e' x).
    { intros x Hx. destruct (Hfrom _ Hx) as (e' & ? & ?).
      exists e'. split; [|done]. apply elem_of_app. by left. }
    assert (Hseen_old : ∀ k, k ∈ seen → ∃ e', e' ∈ pre ++ [e] ∧ qualifies e' k).
    { intros k Hk. apply Hseen in Hk as (e' & ? & ?). exists e'. split; [|done]. apply elem_of_app. by left. }
    apply filter_entry_cases in He
      as (f & Hf & [(Hp & ->)|[(Hp & Hk & ->)|(Hp & Hk & x & Hx & ->)]]);
      unfold filter_inv; simpl; split_and!; try done.
    + (* skipped by a test *)
      intros k. split; [auto|].
      intros (e' & [He'|He']%elem_of_app & Hq); [apply Hseen; eauto|].
      apply list_elem_of_singleton in He' as ->.
      destruct Hq as (f' & Hf' & Hp' & _). congruence.
    + (* dropped as a duplicate *)
      intros k. split; [auto|].
      intros (e' & [He'|He']%elem_of_app & Hq); [apply Hseen; eauto|].
      apply list_elem_of_singleton in He' as ->.
      destruct Hq as (f' & Hf' & Hp' & ->).
      by assert (f' = f) as -> by congruence.
    + (* appended: the set of keys *)
      intros k. split.
      * intros [Hk'|Hk']%elem_of_union; [auto|].
        apply elem_of_singleton in Hk' as ->. exists e.
        split; [|by exists f]. apply elem_of_app. right. by apply list_elem_of_singleton.
      * intros (e' & [He'|He']%elem_of_app & Hq).
        -- apply elem_of_union. left. apply Hseen. eauto.
        -- apply list_elem_of_singleton in He' as ->.
           destruct Hq as (f' & Hf' & Hp' & ->).
           assert (f' = f) as -> by congruence.
           apply elem_of_union. right. by apply elem_of_singleton.
    + (* appended: the keys of the leads stay distinct *)
      rewrite fmap_app. apply NoDup_app. split_and!; [done| |].
      * intros k (x' & -> & Hx')%list_elem_of_fmap Hin. simpl in Hin.
        apply list_elem_of_singleton in Hin.
        apply Hk. rewrite <-(build_lead_key _ _ _ Hx), <-Hin. by apply Hkeys.
      * simpl. apply NoDup_singleton.
    + intros x' [Hx'|Hx']%elem_of_app.
      * apply elem_of_union. left. by apply Hkeys.
      * apply list_elem_of_singleton in Hx' as ->.
        rewrite (build_lead_key _ _ _ Hx).
        apply elem_of_union. right. by apply elem_of_singleton.
    + intros x' [Hx'|Hx']%elem_of_app; [auto|].
      apply list_elem_of_singleton in Hx' as ->. exists e.
      split; [|by exists f]. apply elem_of_app. right. by apply list_elem_of_singleton.
Qed.

(** What the three tests let through. *)
Lemma passes_true f :
  passes f = Ok true →
  f_website f = ""
  ∧ (∃ n, Py.number (f_review_count f) = Some n
          ∧ Num.ltb n (NInt 1) = false)
  ∧ (f_phone f ≠ "" ∨ Py.truthy (f_emails f) = true).
Proof.
  unfold passes, Py.lt.
  destruct (nonempty (f_website f)) eqn:Hw; [done|].
  apply nonempty_false in Hw.
  destruct (Py.number (f_review_count f)) as [n|]; simpl; [|done].
  destruct (Num.ltb n (NInt 1)) eqn:Hn; [done|]. intros [= Hc].
  split_and!; [done|by exists n|].
  destruct (nonempty (f_phone f)) eqn:Hp.
  - left. by apply nonempty_true.
  - right. simpl in Hc. by apply negb_true_iff, negb_false_iff in Hc.
Qed.

(** What the five reads return when none of them raises. *)
Lemma read_fields_dict e f :
  read_fields e = Ok f →
  ∃ d, e = JObj d
    ∧ Py.strip (Py.or (default JNull (Py.lookup d "web_site")) (JStr ""))
      = Ok (f_website f)
    ∧ f_review_count f
      = Py.or (default (JInt 0) (Py.lookup d "review_count")) (JInt 0)
    ∧ Py.strip (Py.or (default JNull (Py.lookup d "phone")) (JStr ""))
      = Ok (f_phone f)
    ∧ f_emails f = Py.or (default JNull (Py.lookup d "emails")) (JArr [])
    ∧ Py.strip (Py.or (default JNull (Py.lookup d "title")) (JStr ""))
      = Ok (f_title f).
Proof.
  unfold read_fields. destruct e as [| | | | | |d]; try done. simpl.
  intros H. exists d. split; [done|]. split_binds H.
  injection H as <-. by simplify_eq/=.
Qed.

Lemma strip_or_text v w :
  Py.strip (Py.or v (JStr "")) = Ok w →
  ∃ s, text_value v = Some s ∧ w = strip s.
Proof.
  unfold Py.or.
  destruct v as [|[]|n|f|s|l|d]; simpl; try done;
    try (intros [= <-]; by exists "").
  - destruct (n =? 0); simpl; [|done]. intros [= <-]. by exists "".
  - destruct f; simpl; try done. intros [= <-]. by exists "".
  - destruct s; simpl; intros [= <-]; eauto.
  - destruct l; simpl; [|done]. intros [= <-]. by exists "".
  - destruct d; simpl; [|done]. intros [= <-]. by exists "".
Qed.





Lemma filter_leads_inv entries leads :
  filter_leads entries = Ok leads →
  ∃ seen, filter_loop ([], ∅) entries = Ok (leads, seen)
          ∧ filter_inv entries (leads, seen).
Proof.
  unfold filter_leads. intros ([leads' seen] & Hloop & [= <-])%bind_Ok.
  exists seen. split; [done|]. by apply filter_loop_inv.
Qed.

(** The review count of every lead is a number, and not below 1. *)
Lemma produces_review_count e x :
  produces e x →
  ∃ n, Py.number (review_count x) = Some n ∧ Num.ltb n (NInt 1) = false.
Proof.
  intros (f & _ & (_ & Hn & _)%passes_true & (_ & _ & Hrc)%build_lead_fields).
  by rewrite Hrc.
Qed.

Lemma filter_leads_numbers entries leads :
  filter_leads entries = Ok leads →
  Forall (λ x, is_Some (Py.number (review_count x))) leads.
Proof.
  intros (seen & _ & _ & _ & _ & Hfrom)%filter_leads_inv.
  apply Forall_forall. intros x (e & _ & (n & Hn & _)%produces_review_count)%Hfrom.
  by exists n.
Qed.

(** Once the loop has passed an entry, later turns only append leads, and
    only leads whose key was not seen before. *)
Lemma filter_loop_extends st post st' :
  filter_loop st post = Ok st' →
  ∃ extra, st'.1 = st.1 ++ extra
    ∧ st.2 ⊆ st'.2
    ∧ ∀ x, x ∈ extra → lead_key x ∉ st.2.
Proof.
  revert st. induction post as [|e post IH]; intros st; simpl.
  - intros [= <-]. exists []. split_and!; [by rewrite app_nil_r|done|].
    intros x Hx. by apply elem_of_nil in Hx.
  - intros (st1 & He & Hpost)%bind_Ok.
    destruct (IH _ Hpost) as (extra & Hleads & Hsub & Hnew).
    destruct st as [leads seen].
    apply filter_entry_cases in He
      as (f & Hf & [(_ & ->)|[(_ & _ & ->)|(_ & Hk & x & Hx & ->)]]);
      [by exists extra..|].
    simpl in *. exists (x :: extra). split_and!.
    + by rewrite Hleads, <-app_assoc.
    + etrans; [|done]. apply union_subseteq_l.
    + intros x' [->|Hx']%elem_of_cons.
      * by rewrite (build_lead_key _ _ _ Hx).
      * intros Hin. apply (Hnew _ Hx'). apply elem_of_union. by left.
Qed.

End FilterLoop.

(** ** Ranker: the stable sort *)

Section StableSortFacts.
Context {K A : Type} (lt : K → K → bool).
Hypothesis lt_asym : ∀ a b, lt a b = true → lt b a = false.

Implicit Types (x y : K * A) (l : list (K * A)).

Lemma insert_keyed_perm x l : insert_keyed lt x l ≡ₚ x :: l.
Proof.
  induction l as [|y l IH]; simpl; [done|].
  destruct (lt y.1 x.1); [|done].
  rewrite IH. apply Permutation_swap.
Qed.

Lemma stable_sort_perm l : stable_sort lt l ≡ₚ l.
Proof.
  induction l as [|x l IH]; simpl; [done|].
  by rewrite insert_keyed_perm, IH.
Qed.

Lemma insert_keyed_hd x y l :
  lt y.1 x.1 = true → HdRel (not_above lt) y l →
  HdRel (not_above lt) y (insert_keyed lt x l).
Proof.
  intros Hyx Hhd. destruct l as [|z l]; simpl.
  - constructor. by apply lt_asym.
  - destruct (lt z.1 x.1); constructor.
    + by inversion Hhd.
    + by apply lt_asym.
Qed.

Lemma insert_keyed_sorted x l :
  Sorted (not_above lt) l → Sorted (not_above lt) (insert_keyed lt x l).
Proof.
  induction 1 as [|y l Hl IH Hhd]; simpl.
  - by repeat constructor.
  - destruct (lt y.1 x.1) eqn:Hyx.
    + constructor; [done|]. by apply insert_keyed_hd.
    + repeat constructor; done.
Qed.

Lemma stable_sort_sorted l : Sorted (not_above lt) (stable_sort lt l).
Proof.
  induction l as [|x l IH]; simpl; [constructor|].
  by apply insert_keyed_sorted.
Qed.

(** Inserting an item moves it past items that are below it only: the
    items of a class of keys none of which is below another keep their
    order. *)
Section Stable.
Context (C : K → Prop) `{!∀ k, Decision (C k)}.
Hypothesis C_ties : ∀ a b, C a → C b → lt a b = false.

Lemma insert_keyed_stable x l :
  filter (λ y, C y.1) (insert_keyed lt x l) = filter (λ y, C y.1) (x :: l).
Proof.
  induction l as [|y l IH]; simpl; [done|].
  destruct (lt y.1 x.1) eqn:Hyx; [|done].
  rewrite (filter_cons _ y), IH, !(filter_cons _ x), !(filter_cons _ y).
  destruct (decide (C y.1)) as [Hy|Hy], (decide (C x.1)) as [Hx|Hx];
    try done.
  by rewrite (C_ties _ _ Hy Hx) in Hyx.
Qed.

Lemma stable_sort_stable l :
  filter (λ y, C y.1) (stable_sort lt l) = filter (λ y, C y.1) l.
Proof.
  induction l as [|x l IH]; simpl; [done|].
  by rewrite insert_keyed_stable, !(filter_cons _ x), IH.
Qed.
End Stable.

End StableSortFacts.

Lemma stable_sort_of_sorted {K A : Type} (lt : K → K → bool)
    (l : list (K * A)) :
  Sorted (not_above lt) l → stable_sort lt l = l.
Proof.
  induction 1 as [|x l Hl IH Hhd]; [done|]. simpl. rewrite IH.
  destruct Hhd as [|y l' Hxy]; [done|]. simpl.
  unfold not_above in Hxy. by rewrite Hxy.
Qed.


Lemma Sorted_fmap {B C} (f : B → C) (R : B → B → Prop) (R' : C → C → Prop)
    (l : list B) :
  (∀ a b, a ∈ l → b ∈ l → R a b → R' (f a) (f b)) →
  Sorted R l → Sorted R' (f <$> l).
Proof.
  intros HR Hl. induction Hl as [|c l Hl IH Hhd]; [constructor|].
  rewrite fmap_cons. constructor.
  - apply IH. intros a b Ha Hb. apply HR; by right.
  - destruct Hhd as [|c' l' Hcc']; constructor.
    apply HR; [by left|right; by left|done].
Qed.

Lemma Sorted_strengthen {B} (R R' : B → B → Prop) (l : list B) :
  (∀ a b, a ∈ l → b ∈ l → R a b → R' a b) → Sorted R l → Sorted R' l.
Proof.
  intros HR Hl. rewrite <-(list_fmap_id l). by apply (Sorted_fmap id R R').
Qed.

Section Ranker.
Import NumFacts.

Lemma key_lt_irrefl a : key_lt a a = false.
Proof.
  unfold key_lt. destruct a as [t r]; simpl. rewrite ltb_irrefl. lia.
Qed.

Lemma key_lt_asym a b : key_lt a b = true → key_lt b a = false.
Proof.
  unfold key_lt. destruct a as [t r], b as [t' r']; simpl.
  destruct (Num.ltb r r') eqn:Hr; [rewrite (ltb_asym _ _ Hr)|]; lia.
Qed.

(** Two keys of one tier and one review count are not below each other. *)
Lemma key_is_ties t r a b : key_is t r a → key_is t r b → key_lt a b = false.
Proof.
  unfold key_is, key_lt. intros [-> Ha] [-> Hb].
  rewrite (eqb_not_ltb _ _ _ Ha Hb). lia.
Qed.

(** [decorate] succeeds exactly when every review count is a number. *)
Lemma decorate_numbers leads :
  Forall (λ x, is_Some (Py.number (review_count x))) leads →
  decorate leads = Ok ((λ x, (rank_key x, x)) <$> leads).
Proof.
  induction 1 as [|x leads [n Hn] _ IH]; [done|].
  simpl. unfold sort_key, Py.neg, rank_key. rewrite Hn, IH. done.
Qed.

Lemma decorate_Ok leads keyed :
  decorate leads = Ok keyed →
  Forall (λ x, is_Some (Py.number (review_count x))) leads.
Proof.
  revert keyed. induction leads as [|x leads IH]; intros keyed; [done|].
  simpl. intros (k & Hk & (rest & Hrest & _)%bind_Ok)%bind_Ok.
  constructor; [|by eapply IH].
  unfold sort_key, Py.neg in Hk. by destruct (Py.number (review_count x)).
Qed.

Lemma keyed_ok_decorated leads :
  Forall (λ x, is_Some (Py.number (review_count x))) leads →
  Forall keyed_ok ((λ x, (rank_key x, x)) <$> leads).
Proof. intros H. apply Forall_fmap. by eapply Forall_impl. Qed.

Lemma keyed_ok_eq (l : list ((Z * num) * Lead)) :
  Forall keyed_ok l → (λ x, (rank_key x, x)) <$> l.*2 = l.
Proof.
  induction 1 as [|[k x] l [Hk _] _ IH]; [done|].
  rewrite !fmap_cons, IH. simpl in *. by rewrite Hk.
Qed.

(** On well-keyed pairs, selecting by key is selecting by tier and review
    count. *)
Lemma filter_by_key (t : Z) (r : num) (l : list ((Z * num) * Lead)) :
  Forall keyed_ok l →
  filter (λ x, tier x = t ∧ count_is r x = true) l.*2
  = (filter (λ p, key_is t r p.1) l).*2.
Proof.
  induction 1 as [|[k x] l [Hk [n Hn]] _ IH]; [done|].
  rewrite fmap_cons, !filter_cons, IH. simpl in *.
  subst k. unfold rank_key, count_is, key_is. rewrite Hn. simpl.
  destruct (decide (tier x = t ∧ Num.eqb n r = true)) as [[Ht Hr]|H],
    (decide (tier x = t ∧ Num.eqb (Num.neg n) (Num.neg r) = true))
      as [[Ht' Hr']|H']; try done.
  - destruct H'. by rewrite eqb_neg.
  - destruct H. by rewrite <-eqb_neg.
Qed.

Lemma sort_leads_perm leads sorted :
  sort_leads leads = Ok sorted → sorted ≡ₚ leads.
Proof.
  unfold sort_leads. intros (keyed & Hdec & [= <-])%bind_Ok.
  assert (keyed.*2 = leads) as <-.
  { revert keyed Hdec. induction leads as [|x leads IH]; intros keyed.
    - by intros [= <-].
    - simpl. intros Hdec. split_binds Hdec. injection Hdec as <-.
      simpl. f_equal. by apply IH. }
  by rewrite stable_sort_perm.
Qed.

(** What [sort_leads] returns, when it returns. *)
Lemma sort_leads_Ok leads sorted :
  sort_leads leads = Ok sorted →
  let keyed := (λ x, (rank_key x, x)) <$> leads in
  Forall (λ x, is_Some (Py.number (review_count x))) leads
  ∧ sorted = (stable_sort key_lt keyed).*2
  ∧ Forall keyed_ok (stable_sort key_lt keyed)
  ∧ sorted ≡ₚ leads.
Proof.
  intros Hsort. pose proof Hsort as Hperm%sort_leads_perm.
  unfold sort_leads in Hsort.
  apply bind_Ok in Hsort as (keyed & Hdec & [= <-]).
  pose proof (decorate_Ok _ _ Hdec) as Hnum.
  rewrite (decorate_numbers _ Hnum) in Hdec. injection Hdec as <-.
  split; [done|]. split; [done|]. split; [|done].
  rewrite stable_sort_perm. by apply keyed_ok_decorated.
Qed.

(** The sort succeeds exactly on leads whose review counts are numbers. *)
Lemma sort_leads_total leads :
  Forall (λ x, is_Some (Py.number (review_count x))) leads →
  ∃ sorted, sort_leads leads = Ok sorted.
Proof.
  intros Hnum. unfold sort_leads. rewrite (decorate_numbers _ Hnum).
  by eexists.
Qed.

(** No lead of the sorted list is above its right neighbour. *)
Lemma sort_leads_sorted leads sorted :
  sort_leads leads = Ok sorted → Sorted rank_le sorted.
Proof.
  intros (_ & -> & Hok & _)%sort_leads_Ok.
  apply (Sorted_fmap snd (not_above key_lt)).
  - rewrite Forall_forall in Hok.
    intros p q [Hp _]%Hok [Hq _]%Hok. unfold not_above, rank_le.
    by rewrite Hp, Hq.
  - apply stable_sort_sorted, key_lt_asym.
Qed.

(** Ties keep their order. *)
Lemma sort_leads_stable leads sorted :
  sort_leads leads = Ok sorted → same_order_within_ties leads sorted.
Proof.
  intros (Hnum & -> & Hok & _)%sort_leads_Ok t r.
  rewrite (filter_by_key t r _ Hok).
  rewrite (stable_sort_stable key_lt (key_is t r) (key_is_ties t r)).
  rewrite <-filter_by_key by by apply keyed_ok_decorated.
  by rewrite <-list_fmap_compose, list_fmap_id.
Qed.

(** The tiers of the sorted list ascend, whatever the review counts. *)
Lemma insert_keyed_tiers {B} (x : (Z * num) * B) l :
  StronglySorted (λ p q, p.1.1 ≤ q.1.1) l →
  StronglySorted (λ p q, p.1.1 ≤ q.1.1) (insert_keyed key_lt x l).
Proof.
  induction 1 as [|y l Hl IH Hall]; simpl; [by repeat constructor|].
  destruct (key_lt y.1 x.1) eqn:Hyx.
  - constructor; [done|]. rewrite List.Forall_forall in Hall |- *.
    intros z Hz%list_elem_of_In. rewrite insert_keyed_perm in Hz.
    apply elem_of_cons in Hz as [->|Hz].
    + unfold key_lt in Hyx. lia.
    + by apply Hall, list_elem_of_In.
  - constructor; [by constructor|]. constructor.
    + unfold key_lt in Hyx.
      destruct (Num.ltb y.1.2 x.1.2); lia.
    + rewrite List.Forall_forall in Hall |- *. intros z Hz.
      specialize (Hall z Hz). simpl in Hall. unfold key_lt in Hyx.
      destruct (Num.ltb y.1.2 x.1.2); lia.
Qed.

Lemma stable_sort_tiers {B} (l : list ((Z * num) * B)) :
  StronglySorted (λ p q, p.1.1 ≤ q.1.1) (stable_sort key_lt l).
Proof.
  induction l as [|x l IH]; simpl; [constructor|]. by apply insert_keyed_tiers.
Qed.

Lemma sort_leads_tiers leads sorted :
  sort_leads leads = Ok sorted → StronglySorted tier_le sorted.
Proof.
  intros (_ & -> & Hok & _)%sort_leads_Ok.
  pose proof (stable_sort_tiers ((λ x, (rank_key x, x)) <$> leads)) as Hss.
  induction Hss as [|p l Hl IH Hall]; [constructor|].
  apply Forall_cons in Hok as [[Hp _] Hok]. rewrite fmap_cons.
  constructor; [by apply IH|].
  rewrite List.Forall_forall in Hall |- *. intros x Hx%list_elem_of_In.
  apply list_elem_of_fmap in Hx as (q & -> & Hq).
  rewrite Forall_forall in Hok. destruct (Hok q Hq) as [Hkq _].
  specialize (Hall q (proj1 (list_elem_of_In _ _) Hq)).
  unfold tier_le. by rewrite Hp, Hkq in Hall.
Qed.

(** Between leads whose review counts are not NaN, not being above is the
    order of the specification. *)
Lemma rank_le_in_order a b : counted a → counted b → rank_le a b → in_order a b.
Proof.
  intros (ra & Hra & Hna) (rb & Hrb & Hnb) Hle. exists ra, rb.
  split_and!; [done..|].
  unfold rank_le, rank_key, key_lt in Hle. rewrite Hra, Hrb in Hle.
  simpl in Hle. rewrite ltb_neg in Hle.
  destruct (Num.ltb ra rb) eqn:Hlt; [lia|].
  apply ltb_false in Hlt; [|done..].
  destruct (Z.lt_trichotomy (tier a) (tier b)) as [?|[?|?]]; [auto|auto|lia].
Qed.

Lemma in_order_trans a b c : in_order a b → in_order b c → in_order a c.
Proof.
  intros (ra & rb & Hra & Hrb & Hab) (rb' & rc & Hrb' & Hrc & Hbc).
  assert (rb' = rb) as -> by congruence.
  exists ra, rc. split_and!; [done..|].
  destruct Hab as [?|[? Hab]], Hbc as [?|[? Hbc]]; [left; lia..|].
  right. split; [lia|]. by apply (leb_trans _ rb).
Qed.

Lemma in_order_tier a b : in_order a b → tier a ≤ tier b.
Proof. intros (ra & rb & _ & _ & H). lia. Qed.

(** When no review count is NaN the sorted list is in the order of the
    specification, as a whole. *)
Lemma sort_leads_in_order leads sorted :
  sort_leads leads = Ok sorted → Forall counted leads →
  StronglySorted in_order sorted.
Proof.
  intros Hsort Hcounted.
  apply Sorted_StronglySorted; [intros a b c; apply in_order_trans|].
  apply (Sorted_strengthen rank_le); [|by eapply sort_leads_sorted].
  rewrite <-(sort_leads_perm _ _ Hsort), Forall_forall in Hcounted.
  intros a b Ha Hb. apply rank_le_in_order; auto.
Qed.


(** When no review count is NaN the sort has one possible result: a
    permutation of the leads that is ranked and keeps ties in order is the
    list [sort_leads] returns.  So [sort_leads] returns what any stable
    sort of the leads by this key returns. *)
Lemma ranked_Sorted (l : list Lead) : ranked l → Sorted in_order l.
Proof.
  induction l as [|x l IH]; intros Hranked; [constructor|].
  constructor.
  - apply IH. intros i a b. apply (Hranked (S i)).
  - destruct l as [|y l]; constructor. by apply (Hranked 0%nat).
Qed.

Lemma in_order_both a b :
  in_order a b → in_order b a →
  ∃ r, tier a = tier b ∧ count_is r a = true ∧ count_is r b = true.
Proof.
  intros (ra & rb & Hra & Hrb & Hab) (rb' & ra' & Hrb' & Hra' & Hba).
  assert (rb' = rb) as -> by congruence.
  assert (ra' = ra) as -> by congruence.
  destruct Hab as [?|[Ht Hab]], Hba as [?|[Ht' Hba]]; try lia.
  exists rb. unfold count_is. rewrite Hra, Hrb.
  split; [done|]. split.
  - by apply leb_antisym.
  - apply eqb_refl. by apply leb_not_nan in Hab as [? _].
Qed.

Lemma ranked_stable_unique (l1 l2 : list Lead) :
  StronglySorted in_order l1 → StronglySorted in_order l2 →
  l1 ≡ₚ l2 →
  (∀ t r, filter (λ x, tier x = t ∧ count_is r x = true) l1
          = filter (λ x, tier x = t ∧ count_is r x = true) l2) →
  l1 = l2.
Proof.
  intros H1. revert l2.
  induction H1 as [|x l1 H1 IH Hx]; intros l2 H2 Hperm Hsame.
  { by apply Permutation_nil_l in Hperm. }
  destruct H2 as [|y l2 H2 Hy].
  { by apply Permutation_nil_r in Hperm. }
  rewrite List.Forall_forall in Hx, Hy.
  assert (x = y) as <-.
  { assert (Hxin : x ∈ y :: l2) by (rewrite <-Hperm; by left).
    assert (Hyin : y ∈ x :: l1) by (rewrite Hperm; by left).
    apply elem_of_cons in Hxin as [?|Hxin]; [done|].
    apply elem_of_cons in Hyin as [?|Hyin]; [done|].
    destruct (in_order_both x y) as (r & Ht & Hrx & Hry).
    { by apply Hx, list_elem_of_In. }
    { by apply Hy, list_elem_of_In. }
    specialize (Hsame (tier x) r).
    rewrite !filter_cons_True in Hsame by done. by injection Hsame. }
  f_equal. apply IH; [done|by eapply Permutation_cons_inv|].
  intros t r. specialize (Hsame t r). rewrite !filter_cons in Hsame.
  destruct (decide (tier x = t ∧ count_is r x = true)); [|done].
  by injection Hsame.
Qed.

Lemma sort_leads_unique leads sorted (l : list Lead) :
  sort_leads leads = Ok sorted → Forall counted leads →
  l ≡ₚ leads → ranked l → same_order_within_ties leads l →
  l = sorted.
Proof.
  intros Hsort Hcounted Hperm Hranked Hstable.
  apply ranked_stable_unique.
  - apply Sorted_StronglySorted; [intros a b c; apply in_order_trans|].
    by apply ranked_Sorted.
  - by apply sort_leads_in_order with leads.
  - by rewrite Hperm, (sort_leads_perm _ _ Hsort).
  - intros t r. by rewrite Hstable, (sort_leads_stable _ _ Hsort).
Qed.

End Ranker.

(** ** Filter: entries of the data model never raise *)

Section WellTyped.

Lemma strip_text_or_absent o :
  text_or_absent o →
  ∃ w, Py.strip (Py.or (default JNull o) (JStr "")) = Ok w.
Proof.
  destruct o as [[| | | |s| |]|]; simpl; try done; intros _;
    try (by eexists).
  unfold Py.or. simpl. destruct (Str.nonempty s); by eexists.
Qed.

Lemma number_count_or_absent o :
  count_or_absent o →
  is_Some (Py.number (Py.or (default (JInt 0) o) (JInt 0))).
Proof.
  destruct o as [[| |n| | | |]|]; simpl; try done; intros _;
    try (by eexists).
  unfold Py.or. simpl. destruct (negb (n =? 0)); by eexists.
Qed.

Lemma join_texts_or_absent sep o :
  texts_or_absent o →
  ∃ t, Py.join sep (Py.or (default JNull o) (JArr [])) = Ok t.
Proof.
  destruct o as [[| | | | |l|]|]; simpl; try done; try (by eexists).
  intros [ss ->]. unfold Py.or.
  destruct (Py.truthy _); simpl; [|by eexists].
  rewrite strs_of_strings. by eexists.
Qed.

Lemma well_typed_entry st e :
  well_typed e → ∃ st', filter_entry st e = Ok st'.
Proof.
  intros (d & -> & Hweb & Hrc & Hphone & Hemails & Htitle & Hcats).
  destruct st as [leads seen]. rewrite filter_entry_eq.
  destruct (strip_text_or_absent _ Hweb) as [website Hw].
  destruct (strip_text_or_absent _ Hphone) as [phone Hp].
  destruct (strip_text_or_absent _ Htitle) as [title Ht].
  destruct (number_count_or_absent _ Hrc) as [n Hn].
  destruct (join_texts_or_absent " " _ Hcats) as [joined Hj].
  destruct (join_texts_or_absent "; " _ Hemails) as [mails Hm].
  unfold read_fields. simpl. rewrite Hw, Hp, Ht. simpl.
  unfold passes, Py.lt. simpl. rewrite Hn. simpl.
  destruct (Str.nonempty website); simpl; [by eexists|].
  destruct (Num.ltb n (NInt 1)); simpl; [by eexists|].
  destruct (negb _); simpl; [|by eexists].
  destruct (bool_decide _); [by eexists|].
  unfold build_lead, classify_tier. simpl. rewrite Hj. simpl.
  destruct (Py.truthy _); [rewrite Hm|]; by eexists.
Qed.

(** The filter and the sort succeed on entries of the data model. *)
Lemma well_typed_total entries :
  Forall well_typed entries → ∃ leads, filter_leads entries = Ok leads.
Proof.
  unfold filter_leads. generalize (([], ∅) : list Lead * gset string).
  intros st Hall. revert st.
  induction Hall as [|e entries He _ IH]; intros st; simpl; [by eexists|].
  destruct (well_typed_entry st e He) as [st' ->]. simpl. apply IH.
Qed.

End WellTyped.

(** ** Filter: what the leads satisfy *)

Lemma filter_none {B} (P : B → Prop) `{!∀ x, Decision (P x)} (l : list B) :
  (∀ x, x ∈ l → ¬ P x) → filter P l = [].
Proof.
  induction l as [|x l IH]; intros Hl; [done|].
  rewrite filter_cons_False by (apply Hl; by left).
  apply IH. intros x' Hx'. apply Hl. by right.
Qed.

Section FilterFacts.




(** C3: deduplication keeps the first qualifying record of each dedup key.
    When [e1] is the first qualifying record with key [k], the filtered list
    and the sorted list hold exactly one lead with that key and it is the
    lead built from [e1]; every later qualifying record with key [k] leaves
    the leads and the set of seen keys as they were, whatever its other
    fields hold. *)
Theorem dedup_keeps_first (pre post : list json) (e1 : json) (k : string)
    (leads : list Lead) :
  qualifies e1 k →
  (∀ e, e ∈ pre → ¬ qualifies e k) →
  filter_leads (pre ++ e1 :: post) = Ok leads →
  (∃ x1, produces e1 x1
     ∧ filter (λ x, lead_key x = k) leads = [x1]
     ∧ ∀ sorted, sort_leads leads = Ok sorted →
         filter (λ x, lead_key x = k) sorted = [x1])
  ∧ (∀ mid e2 rest st,
       post = mid ++ e2 :: rest → qualifies e2 k →
       filter_loop ([], ∅) (pre ++ e1 :: mid) = Ok st →
       filter_entry st e2 = Ok st).
Proof.
  intros Hq1 Hfirst Hrun. split.
  - destruct Hq1 as (f1 & Hf1 & Hp1 & ->).
    apply filter_leads_inv in Hrun as (seen & Hrun & _).
    rewrite filter_loop_app in Hrun.
    apply bind_Ok in Hrun as ([leads0 seen0] & Hpre & Hrun). simpl in Hrun.
    apply bind_Ok in Hrun as (st1 & He1 & Hpost).
    destruct (filter_loop_inv _ _ Hpre) as (Hseen & _ & Hkeys & _).
    simpl in *.
    assert (Hfresh : dedup_key (f_title f1) (f_phone f1) ∉ seen0).
    { intros (e & He & Hq)%Hseen. by apply (Hfirst e). }
    apply filter_entry_cases in He1
      as (f & Hf & [(Hp & _)|[(_ & Hk & _)|(_ & _ & x1 & Hx1 & ->)]]);
      assert (f = f1) as -> by congruence; [congruence|done|].
    exists x1. split; [by exists f1|].
    apply filter_loop_extends in Hpost as (extra & Hleads & _ & Hnew).
    simpl in *. subst leads.
    assert (Hone : filter (λ x, lead_key x = dedup_key (f_title f1) (f_phone f1))
                     ((leads0 ++ [x1]) ++ extra) = [x1]).
    { rewrite !filter_app.
      rewrite (filter_cons_True _ x1 []), filter_nil
        by by eapply build_lead_key.
      rewrite !filter_none; [done| |].
      - intros x Hx Hkx. apply (Hnew x Hx). rewrite Hkx.
        apply elem_of_union. right. by apply elem_of_singleton.
      - intros x Hx Hkx. apply Hfresh. rewrite <-Hkx. by apply Hkeys. }
    split; [done|]. intros sorted Hperm%sort_leads_perm.
    apply Permutation_singleton_r. by rewrite Hperm, Hone.
  - intros mid e2 rest [leads2 seen2] _ (f2 & Hf2 & Hp2 & Hk2) Hmid.
    destruct (filter_loop_inv _ _ Hmid) as (Hseen & _).
    rewrite filter_entry_eq, Hf2. simpl. rewrite Hp2. simpl.
    rewrite bool_decide_true; [done|].
    rewrite <-Hk2. apply Hseen. exists e1. split; [|done].
    apply elem_of_app. right. by left.
Qed.

Lemma dedup_keeps_first_witness :
  (∃ x1, produces salon_first x1
     ∧ filter (λ x, lead_key x = "ABC Salon|0733000000")
         [listing_lead 2 "ABC Salon" "0733000000" 3] = [x1]
     ∧ ∀ sorted,
         sort_leads [listing_lead 2 "ABC Salon" "0733000000" 3] = Ok sorted →
         filter (λ x, lead_key x = "ABC Salon|0733000000") sorted = [x1])
  ∧ (∀ mid e2 rest st,
       [salon_again] = mid ++ e2 :: rest →
       qualifies e2 "ABC Salon|0733000000" →
       filter_loop ([], ∅) ([] ++ salon_first :: mid) = Ok st →
       filter_entry st e2 = Ok st).
Proof.
  apply (dedup_keeps_first [] [salon_again] salon_first).
  - eexists. split_and!; reflexivity.
  - intros e He. by apply elem_of_nil in He.
  - vm_compute. reflexivity.
Defined.

(** Distinct dedup keys give distinct (title, phone) pairs, and the
    property passes to permutations and to sublists. *)
Lemma NoDup_keys_unique_pairs (l : list Lead) :
  NoDup (lead_key <$> l) → unique_pairs l.
Proof.
  intros Hnodup i j a b Ha Hb Hij [= Ht Hp]. apply Hij.
  apply (NoDup_lookup _ i j (lead_key a) Hnodup).
  - by rewrite list_lookup_fmap, Ha.
  - rewrite list_lookup_fmap, Hb. unfold lead_key. by rewrite Ht, Hp.
Qed.

Lemma NoDup_keys_filter (P : Lead → Prop) `{!∀ x, Decision (P x)} l :
  NoDup (lead_key <$> l) → NoDup (lead_key <$> filter P l).
Proof.
  intros Hnodup. eapply sublist_NoDup; [done|].
  apply fmap_sublist, sublist_filter.
Qed.

(** C5: the filtered list holds no two leads with the same (title, phone)
    pair, and neither do the sorted list and the tier-1 and tier-2 subsets
    taken from it, which are the rows of the three exports. *)
Theorem leads_unique_by_title_and_phone (entries : list json)
    (leads sorted : list Lead) :
  filter_leads entries = Ok leads →
  sort_leads leads = Ok sorted →
  unique_pairs leads
  ∧ unique_pairs sorted
  ∧ unique_pairs (filter (λ l, tier l = 1) sorted)
  ∧ unique_pairs (filter (λ l, tier l = 2) sorted).
Proof.
  intros (seen & _ & _ & Hnodup & _)%filter_leads_inv Hperm%sort_leads_perm.
  simpl in Hnodup.
  assert (NoDup (lead_key <$> sorted)) by by rewrite Hperm.
  split_and!; apply NoDup_keys_unique_pairs; try done;
    by apply NoDup_keys_filter.
Qed.

Lemma leads_unique_by_title_and_phone_witness :
  unique_pairs [listing_lead 2 "ABC Salon" "0733000000" 3; plumber_lead]
  ∧ unique_pairs [plumber_lead; listing_lead 2 "ABC Salon" "0733000000" 3]
  ∧ unique_pairs (filter (λ l, tier l = 1)
      [plumber_lead; listing_lead 2 "ABC Salon" "0733000000" 3])
  ∧ unique_pairs (filter (λ l, tier l = 2)
      [plumber_lead; listing_lead 2 "ABC Salon" "0733000000" 3]).
Proof.
  apply (leads_unique_by_title_and_phone
           [salon_first; plumber_entry; salon_again]);
    vm_compute; reflexivity.
Defined.

(** C6, as the code has it: the lead's [review_rating] is the value of the
    record's field whenever the field is present, null included, and 0 only
    when the field is absent. *)
Theorem review_rating_copied (e : json) (x : Lead) :
  produces e x →
  ∃ d, e = JObj d
       ∧ review_rating x = default (JInt 0) (Py.lookup d "review_rating").
Proof.
  intros (f & (d & -> & _)%read_fields_dict & _ & Hx). exists d.
  split; [done|]. unfold build_lead in Hx. split_binds Hx.
  injection Hx as <-. simpl in *. congruence.
Qed.

Lemma review_rating_copied_witness :
  ∃ d, JObj unrated_fields = JObj d
       ∧ review_rating unrated_lead
         = default (JInt 0) (Py.lookup d "review_rating").
Proof.
  apply (review_rating_copied (JObj unrated_fields) unrated_lead).
  eexists. split_and!; reflexivity.
Defined.

(** C6 fails as stated: a qualifying record whose [review_rating] is null
    gives a lead whose [review_rating] is null, not the 0 stated. *)
Lemma review_rating_null_stays_null :
  filter_leads [JObj unrated_fields] = Ok [unrated_lead]
  ∧ stated_review_rating unrated_fields = JInt 0
  ∧ review_rating unrated_lead = JNull
  ∧ review_rating unrated_lead ≠ stated_review_rating unrated_fields.
Proof. split_and!; [vm_compute; reflexivity|reflexivity|reflexivity|discriminate]. Qed.

(** C10: the dedup key does not tell [a|b] + [c] from [a] + [b|c].  The two
    sample records qualify, differ in their (title, phone) pair and have
    equal keys, and the filter keeps the lead of the first only. *)
Theorem dedup_key_collision :
  (∀ a b c : string,
     dedup_key (a +:+ "|" +:+ b) c = dedup_key a (b +:+ "|" +:+ c))
  ∧ qualifies bar_in_title "A|B|C"
  ∧ qualifies bar_in_phone "A|B|C"
  ∧ ("A|B", "C") ≠ ("A", "B|C")
  ∧ filter_leads [bar_in_title; bar_in_phone] = Ok [listing_lead 3 "A|B" "C" 1]
  ∧ filter_leads [bar_in_phone] = Ok [listing_lead 3 "A" "B|C" 1].
Proof.
  split_and!.
  - intros a b c. unfold dedup_key. by rewrite StrFacts.append_assoc.
  - eexists. split_and!; reflexivity.
  - eexists. split_and!; reflexivity.
  - discriminate.
  - vm_compute. reflexivity.
  - vm_compute. reflexivity.
Qed.






End FilterFacts.

(** ** Loader *)

Section LoaderFacts.
Variable json_loads : string → parsed.

Lemma load_line_records entries line :
  load_line json_loads entries line
  = r ← line_records json_loads line; Ok (entries ++ r).
Proof.
  unfold load_line, line_records.
  destruct (Str.nonempty (Str.strip line)) eqn:Hne; simpl.
  - assert (Str.blank line = false) as ->.
    { apply not_true_iff_false. rewrite <-StrFacts.strip_empty.
      by apply StrFacts.nonempty_true. }
    destruct (json_loads (Str.strip line)); simpl; [done| |done].
    by rewrite app_nil_r.
  - apply StrFacts.nonempty_false, StrFacts.strip_empty in Hne.
    rewrite Hne. simpl. by rewrite app_nil_r.
Qed.

Lemma load_from_records entries lines :
  load_from json_loads entries lines
  = rs ← records json_loads lines; Ok (entries ++ rs).
Proof.
  revert entries. induction lines as [|line lines IH]; intros entries; simpl.
  - by rewrite app_nil_r.
  - rewrite load_line_records.
    destruct (line_records json_loads line) as [r|e]; simpl; [|done].
    rewrite IH. destruct (records json_loads lines) as [rs|e]; simpl; [|done].
    by rewrite app_assoc.
Qed.

Lemma load_records lines : load json_loads lines = records json_loads lines.
Proof.
  unfold load. rewrite load_from_records.
  by destruct (records json_loads lines).
Qed.

Lemma records_app l1 l2 :
  records json_loads (l1 ++ l2)
  = a ← records json_loads l1; b ← records json_loads l2; Ok (a ++ b).
Proof.
  induction l1 as [|line l1 IH]; simpl.
  - by destruct (records json_loads l2).
  - destruct (line_records json_loads line) as [r|e]; simpl; [|done].
    rewrite IH. destruct (records json_loads l1) as [a|e]; simpl; [|done].
    destruct (records json_loads l2) as [b|e]; simpl; [|done].
    by rewrite app_assoc.
Qed.

Lemma records_total lines :
  (∀ line e, line ∈ lines → json_loads (Str.strip line) ≠ OtherError e) →
  ∃ entries, records json_loads lines = Ok entries.
Proof.
  induction lines as [|line lines IH]; intros Hall; simpl; [by eexists|].
  destruct IH as [rs ->]; [intros l e Hl; apply Hall; by right|].
  unfold line_records. destruct (Str.blank line); simpl; [by eexists|].
  destruct (json_loads (Str.strip line)) as [v| |e] eqn:Hline; simpl;
    [by eexists..|].
  by destruct (Hall line e); [left|].
Qed.

(** C7, as the code has it: the loader handles the lines in order.  A blank
    line adds nothing; a line on which the parser reports a decode error
    adds nothing and the loop goes on; a line that parses adds its one
    record; so when the parser raises nothing else, the loader returns
    exactly the records of the lines that parse.  A line on which the parser
    raises another exception is not dropped: the exception ends the
    loading, whatever the lines before gave and whatever follows. *)
Theorem load_keeps_parsed_lines (lines : list string) :
  load json_loads lines = records json_loads lines
  ∧ (∀ line, Str.blank line = true → line_records json_loads line = Ok [])
  ∧ (∀ line, Str.blank line = false →
       json_loads (Str.strip line) = DecodeError →
       line_records json_loads line = Ok [])
  ∧ (∀ line record, Str.blank line = false →
       json_loads (Str.strip line) = Parsed record →
       line_records json_loads line = Ok [record])
  ∧ ((∀ line e, line ∈ lines → json_loads (Str.strip line) ≠ OtherError e) →
     ∃ entries, load json_loads lines = Ok entries)
  ∧ (∀ pre line post entries e,
       lines = pre ++ line :: post →
       load json_loads pre = Ok entries →
       Str.blank line = false →
       json_loads (Str.strip line) = OtherError e →
       load json_loads lines = Raise e).
Proof.
  split_and!.
  - apply load_records.
  - intros line H. unfold line_records. by rewrite H.
  - intros line H1 H2. unfold line_records. by rewrite H1, H2.
  - intros line record H1 H2. unfold line_records. by rewrite H1, H2.
  - intros Hall. rewrite load_records. by apply records_total.
  - intros pre line post entries e -> Hpre Hblank Hline.
    rewrite load_records in Hpre |- *. rewrite records_app, Hpre. simpl.
    unfold line_records. by rewrite Hblank, Hline.
Qed.

End LoaderFacts.

Lemma load_keeps_parsed_lines_witness :
  load sample_loads ["  " +:+ Str.nl; "oops" +:+ Str.nl; " 5 " +:+ Str.nl; "{"]
  = Ok [JInt 5]
  ∧ line_records sample_loads ("  " +:+ Str.nl) = Ok []
  ∧ line_records sample_loads ("oops" +:+ Str.nl) = Ok []
  ∧ line_records sample_loads (" 5 " +:+ Str.nl) = Ok [JInt 5]
  ∧ load sample_loads ([" 5 " +:+ Str.nl] ++ digits 5000 :: ["5"])
    = Raise ValueError.
Proof.
  pose proof (load_keeps_parsed_lines sample_loads
    ["  " +:+ Str.nl; "oops" +:+ Str.nl; " 5 " +:+ Str.nl; "{"])
    as (Hload & Hblank & Hbad & Hgood & _ & _).
  split_and!.
  - exact Hload.
  - apply Hblank. reflexivity.
  - apply Hbad; reflexivity.
  - apply Hgood; reflexivity.
  - apply (load_keeps_parsed_lines sample_loads
             ([" 5 " +:+ Str.nl] ++ digits 5000 :: ["5"]))
      with (pre := [" 5 " +:+ Str.nl]) (line := digits 5000) (post := ["5"])
           (entries := [JInt 5]);
      vm_compute; reflexivity.
Defined.

(** C7 fails as stated: a line of 5000 digits fails to parse, since the
    parser raises [ValueError] on it, and it is not dropped: the loading
    ends with that exception, although the next line parses. *)
Lemma long_integer_line_ends_loading :
  Str.blank (digits 5000) = false
  ∧ fails_to_parse sample_loads (digits 5000)
  ∧ load sample_loads ["5"] = Ok [JInt 5]
  ∧ load sample_loads [digits 5000; "5"] = Raise ValueError
  ∧ load sample_loads [digits 5000; "5"] ≠ load sample_loads ["5"].
Proof.
  assert (Hline : sample_loads (Str.strip (digits 5000)) = OtherError ValueError)
    by (vm_compute; reflexivity).
  assert (Hload : load sample_loads [digits 5000; "5"] = Raise ValueError)
    by (vm_compute; reflexivity).
  split_and!.
  - vm_compute. reflexivity.
  - intros v. by rewrite Hline.
  - reflexivity.
  - exact Hload.
  - by rewrite Hload.
Qed.

(** A blank line, a malformed line and a line that parses. *)
Example load_sample :
  load sample_loads ["  " +:+ Str.nl; "oops" +:+ Str.nl; " 5 " +:+ Str.nl; "{"]
  = Ok [JInt 5].
Proof. reflexivity. Qed.

(** ** Whole runs *)

(** *** Actions *)

Lemma bind_action {A B} (m : action A) (k : A → action B) w :
  (m ≫= k) w
  = match m w with
    | (w', Ok a) => k a w'
    | (w', Raise e) => (w', Raise e)
    end.
Proof. reflexivity. Qed.

Lemma bind_action_step {A B} (m : action A) (k : A → action B) w w1 a :
  m w = (w1, Ok a) → (m ≫= k) w = k a w1.
Proof. intros H. by rewrite bind_action, H. Qed.

Lemma bind_action_Ok {A B} (m : action A) (k : A → action B) w w' b :
  (m ≫= k) w = (w', Ok b) ↔ ∃ a w1, m w = (w1, Ok a) ∧ k a w1 = (w', Ok b).
Proof.
  rewrite bind_action. destruct (m w) as [w1 [a|e]]; split.
  - intros H. by exists a, w1.
  - by intros (a' & w1' & [= -> ->] & H).
  - done.
  - by intros (a' & w1' & ? & _).
Qed.

Lemma world_eq (w1 w2 : world) :
  files w1 = files w2 → console w1 = console w2 → w1 = w2.
Proof. destruct w1, w2; simpl. by intros -> ->. Qed.

Lemma output_is_not_input name : name ∈ outputs → name ≠ INPUT_FILE.
Proof.
  unfold outputs. rewrite !elem_of_cons, elem_of_nil.
  intros [->|[->|[->|[]]]]; discriminate.
Qed.

(** Actions that lay export files over the files they find. *)
Lemma framed_ret {A} (a : A) : framed (mret a : action A).
Proof.
  intros c. exists ∅, c, (Ok a). split.
  - intros name [v Hv]. by rewrite lookup_empty in Hv.
  - intros fs. by rewrite (left_id_L ∅ (∪)).
Qed.

Lemma framed_eval {A} (r : result A) : framed (eval r).
Proof.
  intros c. exists ∅, c, r. split.
  - intros name [v Hv]. by rewrite lookup_empty in Hv.
  - intros fs. by rewrite (left_id_L ∅ (∪)).
Qed.

Lemma framed_bind {A B} (m : action A) (k : A → action B) :
  framed m → (∀ a, framed (k a)) → framed (m ≫= k).
Proof.
  intros Hm Hk c. destruct (Hm c) as (d1 & c1 & [a|e] & Hd1 & Hrun1).
  - destruct (Hk a c1) as (d2 & c2 & r2 & Hd2 & Hrun2).
    exists (d2 ∪ d1), c2, r2. split.
    + intros name [H|H]%lookup_union_is_Some; auto.
    + intros fs. rewrite bind_action, Hrun1, Hrun2.
      by rewrite (assoc_L (∪)).
  - exists d1, c1, (Raise e). split; [done|].
    intros fs. by rewrite bind_action, Hrun1.
Qed.

Section RunFacts.
Variable read_text : string → string * option exn.
Variable json_loads : string → parsed.
Variable csv_row : list json → result string.
Variable py_str : json → string.
Variable open_error : string → option exn.
Variable stdout_error : string → option exn.

#[local] Abbreviation run :=
  (main read_text json_loads csv_row py_str open_error stdout_error).
#[local] Abbreviation entries_of := (read_entries read_text json_loads).
#[local] Abbreviation say := (print stdout_error).
#[local] Abbreviation export := (write_csv csv_row open_error stdout_error).
#[local] Abbreviation preview_of := (preview py_str stdout_error).
#[local] Abbreviation report_of :=
  (report csv_row py_str open_error stdout_error).
#[local] Abbreviation process_of :=
  (process read_text json_loads csv_row py_str open_error stdout_error).
#[local] Abbreviation rows_of := (csv_rows csv_row).
#[local] Abbreviation header := (JStr <$> fieldnames).

(** *** The steps of a run, when they succeed *)

Lemma print_Ok text w w' u :
  say text w = (w', Ok u) →
  stdout_error text = None ∧ w' = mkWorld (files w) (console w ++ [text]).
Proof.
  unfold print. destruct (stdout_error text); [done|]. by intros [= <- _].
Qed.

Lemma print_quiet text w :
  stdout_error text = None →
  say text w = (mkWorld (files w) (console w ++ [text]), Ok ()).
Proof. unfold print. by intros ->. Qed.

Lemma write_rows_Ok (data : list Lead) text :
  write_rows csv_row (row_values <$> data) = (text, None)
  ↔ rows_of data = Ok text.
Proof.
  revert text. induction data as [|x data IH]; intros text.
  - split; by intros [= <-].
  - rewrite fmap_cons. cbn -[fmap].
    destruct (csv_row (row_values x)) as [t|e]; cbn -[fmap]; [|done].
    destruct (write_rows csv_row (row_values <$> data)) as [rest failure]
      eqn:Hw.
    split.
    + intros [= <- ->]. by rewrite (proj1 (IH rest) eq_refl).
    + intros (rest' & Hrest%IH & [= <-])%bind_Ok. by injection Hrest as <- <-.
Qed.

Lemma csv_written_Ok (data : list Lead) text :
  csv_written csv_row data = (text, None)
  ↔ ∃ h rows, csv_row header = Ok h ∧ rows_of data = Ok rows
              ∧ text = h +:+ rows.
Proof.
  unfold csv_written. cbn -[fmap].
  destruct (csv_row header) as [h|e]; cbn -[fmap].
  - destruct (write_rows csv_row (row_values <$> data)) as [rest failure] eqn:Hr.
    split.
    + intros [= <- ->]. exists h, rest. by rewrite <-write_rows_Ok.
    + intros (h' & rows & [= <-] & Hrows%write_rows_Ok & ->).
      rewrite Hrows in Hr. by injection Hr as <- <-.
  - split; [done|]. by intros (h & rows & ? & _).
Qed.

Lemma write_csv_Ok filename data w w' u :
  export filename data w = (w', Ok u) →
  ∃ h rows,
    open_error filename = None
    ∧ csv_row header = Ok h ∧ rows_of data = Ok rows
    ∧ w' = mkWorld (<[ filename := h +:+ rows ]> (files w))
             (console w ++ ["  Written " +:+ pretty (length data)
                            +:+ " leads to " +:+ filename]).
Proof.
  unfold write_csv. destruct (open_error filename); [done|].
  destruct (csv_written csv_row data) as [text [e|]] eqn:Hw; [done|].
  apply csv_written_Ok in Hw as (h & rows & Hh & Hrows & ->).
  intros [_ ->]%print_Ok. by exists h, rows.
Qed.

Lemma write_csv_quiet filename data w h rows :
  open_error filename = None → never stdout_error →
  csv_row header = Ok h → rows_of data = Ok rows →
  export filename data w
  = (mkWorld (<[ filename := h +:+ rows ]> (files w))
       (console w ++ ["  Written " +:+ pretty (length data)
                      +:+ " leads to " +:+ filename]),
     Ok ()).
Proof.
  intros Hopen Hquiet Hh Hrows. unfold write_csv. rewrite Hopen.
  assert (csv_written csv_row data = (h +:+ rows, None)) as ->.
  { apply csv_written_Ok. by exists h, rows. }
  by rewrite print_quiet.
Qed.

Lemma imap_preview_block i (data : list Lead) :
  imap ((λ k, preview_block py_str (i + k)) ∘ S) data
  = imap (λ k, preview_block py_str (S i + k)) data.
Proof. apply imap_ext. intros k y _. simpl. by rewrite Nat.add_succ_r. Qed.

Lemma preview_entry_Ok i lead w w' u :
  preview_entry py_str stdout_error i lead w = (w', Ok u) →
  w' = mkWorld (files w) (console w ++ preview_block py_str i lead).
Proof.
  unfold preview_entry. intros H.
  repeat (apply bind_action_Ok in H as (? & ? & [_ ->]%print_Ok & H)).
  apply print_Ok in H as [_ ->]. simpl. by rewrite <-!app_assoc.
Qed.

Lemma preview_entry_quiet i lead w :
  never stdout_error →
  preview_entry py_str stdout_error i lead w
  = (mkWorld (files w) (console w ++ preview_block py_str i lead), Ok ()).
Proof.
  intros Hquiet. unfold preview_entry.
  repeat (erewrite bind_action_step; [|by apply print_quiet]).
  rewrite print_quiet by done. simpl. by rewrite <-!app_assoc.
Qed.

Lemma preview_Ok i data w w' u :
  preview_of i data w = (w', Ok u) →
  w' = mkWorld (files w)
         (console w ++ concat (imap (λ k, preview_block py_str (i + k)) data)).
Proof.
  revert i w. induction data as [|x data IH]; intros i w.
  - intros [= <- _]. simpl. rewrite app_nil_r. by destruct w.
  - simpl. intros (? & w1 & ->%preview_entry_Ok & H)%bind_action_Ok.
    apply IH in H as ->. simpl. rewrite imap_preview_block.
    by rewrite Nat.add_0_r, <-app_assoc.
Qed.

Lemma preview_quiet i data w :
  never stdout_error →
  preview_of i data w
  = (mkWorld (files w)
       (console w ++ concat (imap (λ k, preview_block py_str (i + k)) data)),
     Ok ()).
Proof.
  intros Hquiet. revert i w. induction data as [|x data IH]; intros i w.
  - simpl. rewrite app_nil_r. by destruct w.
  - simpl. erewrite bind_action_step; [|by apply preview_entry_quiet].
    rewrite IH. simpl. rewrite imap_preview_block.
    by rewrite Nat.add_0_r, <-app_assoc.
Qed.

(** A report that ends without raising has written the three exports and
    printed its texts. *)
Lemma report_Ok leads w w' u :
  report_of leads w = (w', Ok u) →
  ∃ h rows rows1 rows2,
    csv_row header = Ok h
    ∧ rows_of leads = Ok rows
    ∧ rows_of (filter (λ l, tier l = 1) leads) = Ok rows1
    ∧ rows_of (filter (λ l, tier l = 2) leads) = Ok rows2
    ∧ w' = mkWorld (exported h rows rows1 rows2 (files w))
             (console w ++ report_texts py_str leads).
Proof.
  unfold report. intros H.
  do 4 (apply bind_action_Ok in H as (? & ? & [_ ->]%print_Ok & H)).
  apply bind_action_Ok in H
    as (? & ? & (h & rows & _ & Hh & Hrows & ->)%write_csv_Ok & H).
  apply bind_action_Ok in H
    as (? & ? & (h1 & rows1 & _ & Hh1 & Hrows1 & ->)%write_csv_Ok & H).
  apply bind_action_Ok in H
    as (? & ? & (h2 & rows2 & _ & Hh2 & Hrows2 & ->)%write_csv_Ok & H).
  apply bind_action_Ok in H as (? & ? & [_ ->]%print_Ok & H).
  apply preview_Ok in H as ->.
  assert (h1 = h) as -> by congruence. assert (h2 = h) as -> by congruence.
  exists h, rows, rows1, rows2. split_and!; [done..|].
  simpl. unfold exported, report_texts, top_tier1. f_equal.
  by rewrite <-!app_assoc.
Qed.

Lemma report_quiet leads w h rows rows1 rows2 :
  never open_error → never stdout_error →
  csv_row header = Ok h →
  rows_of leads = Ok rows →
  rows_of (filter (λ l, tier l = 1) leads) = Ok rows1 →
  rows_of (filter (λ l, tier l = 2) leads) = Ok rows2 →
  report_of leads w
  = (mkWorld (exported h rows rows1 rows2 (files w))
       (console w ++ report_texts py_str leads),
     Ok ()).
Proof.
  intros Hopen Hquiet Hh Hrows Hrows1 Hrows2. unfold report.
  do 4 (erewrite bind_action_step; [|by apply print_quiet]).
  do 3 (erewrite bind_action_step; [|by apply write_csv_quiet]).
  erewrite bind_action_step; [|by apply print_quiet].
  rewrite preview_quiet by done.
  simpl. unfold exported, report_texts, top_tier1. do 2 f_equal.
  by rewrite <-!app_assoc.
Qed.

Lemma csv_rows_total (data : list Lead) :
  writer_ok csv_row → ∃ rows, rows_of data = Ok rows.
Proof.
  intros Hok. induction data as [|x data [rest IH]]; simpl; [by eexists|].
  destruct (Hok (row_values x)) as [t ->]. rewrite IH. by eexists.
Qed.

Lemma csv_rows_app (l1 l2 : list Lead) :
  rows_of (l1 ++ l2) = a ← rows_of l1; b ← rows_of l2; Ok (a +:+ b).
Proof.
  induction l1 as [|x l1 IH]; simpl.
  - by destruct (rows_of l2).
  - destruct (csv_row (row_values x)) as [t|e]; simpl; [|done].
    rewrite IH. destruct (rows_of l1) as [a|e]; simpl; [|done].
    destruct (rows_of l2) as [b|e]; simpl; [|done].
    by rewrite StrFacts.append_assoc.
Qed.

(** *** The ends of a run *)

Lemma main_missing (fs : gmap string string) :
  fs !! INPUT_FILE = None →
  run fs
  = match stdout_error
            "ERROR: bucharest-results.json not found. Run the scraper first."
    with
    | None =>
        (mkWorld fs
           ["ERROR: bucharest-results.json not found. Run the scraper first."],
         SysExit 1)
    | Some e => (mkWorld fs [], Uncaught e)
    end.
Proof. unfold main, print. intros ->. simpl. by destruct (stdout_error _). Qed.

Lemma main_found (fs : gmap string string) content :
  fs !! INPUT_FILE = Some content →
  run fs
  = match process_of content (mkWorld fs []) with
    | (w, Ok _) => (w, Completed)
    | (w, Raise e) => (w, Uncaught e)
    end.
Proof. unfold main. by intros ->. Qed.



(** A run that ends before the report leaves the files as they were. *)
Lemma main_early_end (fs : gmap string string) content :
  fs !! INPUT_FILE = Some content →
  (∀ entries leads, entries_of content = Ok entries →
     filter_leads entries = Ok leads → False) →
  files (run fs).1 = fs.
Proof.
  intros Hfs Hno. rewrite (main_found _ _ Hfs). unfold process.
  rewrite bind_action. unfold eval at 1.
  destruct (entries_of content) as [entries|e] eqn:Hload; [|done].
  rewrite bind_action. unfold print at 1.
  destruct (stdout_error _); [done|].
  rewrite bind_action. unfold eval at 1.
  destruct (filter_leads entries) as [leads|e] eqn:Hrun; [|done].
  by destruct (Hno entries leads).
Qed.

(** A completed run, with the lists it went through, the files it leaves
    and the texts it printed. *)
Lemma main_completed (fs : gmap string string) :
  (run fs).2 = Completed →
  ∃ content entries leads sorted h rows rows1 rows2,
    fs !! INPUT_FILE = Some content
    ∧ entries_of content = Ok entries
    ∧ filter_leads entries = Ok leads
    ∧ sort_leads leads = Ok sorted
    ∧ csv_row header = Ok h
    ∧ rows_of sorted = Ok rows
    ∧ rows_of (filter (λ l, tier l = 1) sorted) = Ok rows1
    ∧ rows_of (filter (λ l, tier l = 2) sorted) = Ok rows2
    ∧ run fs
      = (mkWorld (exported h rows rows1 rows2 fs)
           (("Total scraped entries: " +:+ pretty (length entries))
            :: report_texts py_str sorted),
         Completed).
Proof.
  destruct (fs !! INPUT_FILE) as [content|] eqn:Hfs.
  2: { rewrite (main_missing _ Hfs). by destruct (stdout_error _). }
  rewrite (main_found _ _ Hfs).
  destruct (process_of content (mkWorld fs [])) as [w' [u|e]] eqn:Hp; [|done].
  intros _. unfold process in Hp.
  apply bind_action_Ok in Hp as (entries & ? & Hload & Hp).
  unfold eval in Hload. injection Hload as <- Hload.
  apply bind_action_Ok in Hp as (? & ? & [_ ->]%print_Ok & Hp).
  apply bind_action_Ok in Hp as (leads & ? & Hrun & Hp).
  unfold eval in Hrun. injection Hrun as <- Hrun.
  apply bind_action_Ok in Hp as (sorted & ? & Hsort & Hp).
  unfold eval in Hsort. injection Hsort as <- Hsort.
  apply report_Ok in Hp as (h & rows & rows1 & rows2 & ? & ? & ? & ? & ->).
  by exists content, entries, leads, sorted, h, rows, rows1, rows2.
Qed.

(** A run in which no step raises completes. *)
Lemma main_completes (fs : gmap string string) content entries leads :
  fs !! INPUT_FILE = Some content →
  entries_of content = Ok entries →
  filter_leads entries = Ok leads →
  never open_error → writer_ok csv_row → never stdout_error →
  ∃ sorted h rows rows1 rows2,
    sort_leads leads = Ok sorted
    ∧ csv_row header = Ok h
    ∧ rows_of sorted = Ok rows
    ∧ rows_of (filter (λ l, tier l = 1) sorted) = Ok rows1
    ∧ rows_of (filter (λ l, tier l = 2) sorted) = Ok rows2
    ∧ run fs
      = (mkWorld (exported h rows rows1 rows2 fs)
           (("Total scraped entries: " +:+ pretty (length entries))
            :: report_texts py_str sorted),
         Completed).
Proof.
  intros Hfs Hload Hrun Hopen Hrows Hquiet.
  destruct (sort_leads_total _ (filter_leads_numbers _ _ Hrun))
    as [sorted Hsort].
  destruct (Hrows header) as [h Hh].
  destruct (csv_rows_total sorted Hrows) as [rows Hr].
  destruct (csv_rows_total (filter (λ l, tier l = 1) sorted) Hrows)
    as [rows1 Hr1].
  destruct (csv_rows_total (filter (λ l, tier l = 2) sorted) Hrows)
    as [rows2 Hr2].
  exists sorted, h, rows, rows1, rows2. split_and!; [done..|].
  rewrite (main_found _ _ Hfs). unfold process.
  rewrite bind_action. unfold eval at 1. rewrite Hload.
  erewrite bind_action_step; [|by apply print_quiet].
  rewrite bind_action. unfold eval at 1. rewrite Hrun.
  rewrite bind_action. unfold eval at 1. rewrite Hsort.
  by rewrite (report_quiet _ _ h rows rows1 rows2).
Qed.

Lemma lookup_exported h rows rows1 rows2 (fs : gmap string string) name :
  name ∈ outputs → is_Some (exported h rows rows1 rows2 fs !! name).
Proof.
  unfold outputs, exported. rewrite !elem_of_cons, elem_of_nil.
  intros [->|[->|[->|[]]]]; rewrite !lookup_insert;
    repeat case_decide; first [congruence|by eexists].
Qed.

(** *** Runs and the files they find *)

Lemma framed_print text : framed (say text).
Proof.
  intros c. unfold print. destruct (stdout_error text) as [e|].
  - exists ∅, c, (Raise e). split.
    + intros name [v Hv]. by rewrite lookup_empty in Hv.
    + intros fs. simpl. by rewrite (left_id_L ∅ (∪)).
  - exists ∅, (c ++ [text]), (Ok ()). split.
    + intros name [v Hv]. by rewrite lookup_empty in Hv.
    + intros fs. simpl. by rewrite (left_id_L ∅ (∪)).
Qed.

Lemma framed_write_csv filename data :
  filename ∈ outputs → framed (export filename data).
Proof.
  intros Hname c. unfold write_csv.
  destruct (open_error filename) as [e|].
  { exists ∅, c, (Raise e). split.
    - intros name [v Hv]. by rewrite lookup_empty in Hv.
    - intros fs. by rewrite (left_id_L ∅ (∪)). }
  destruct (csv_written csv_row data) as [text failure].
  assert (Hdom : ∀ name : string,
    is_Some (({[ filename := text ]} : gmap string string) !! name) →
    name ∈ outputs).
  { intros name [v [<- _]%lookup_singleton_Some]. done. }
  destruct failure as [e|].
  - exists {[ filename := text ]}, c, (Raise e). split; [done|].
    intros fs. simpl. by rewrite insert_union_singleton_l.
  - unfold print. destruct (stdout_error _) as [e|].
    + exists {[ filename := text ]}, c, (Raise e). split; [done|].
      intros fs. simpl. by rewrite insert_union_singleton_l.
    + eexists {[ filename := text ]}, _, (Ok ()). split; [done|].
      intros fs. simpl. by rewrite insert_union_singleton_l.
Qed.

Lemma framed_preview i data : framed (preview_of i data).
Proof.
  revert i. induction data as [|x data IH]; intros i; simpl.
  - apply framed_ret.
  - apply framed_bind; [|done]. unfold preview_entry.
    repeat (apply framed_bind; [apply framed_print|intros _]).
    apply framed_print.
Qed.

Lemma framed_report leads : framed (report_of leads).
Proof.
  unfold report.
  do 4 (apply framed_bind; [apply framed_print|intros _]).
  apply framed_bind; [apply framed_write_csv; set_solver|intros _].
  apply framed_bind; [apply framed_write_csv; set_solver|intros _].
  apply framed_bind; [apply framed_write_csv; set_solver|intros _].
  apply framed_bind; [apply framed_print|intros _].
  apply framed_preview.
Qed.

Lemma framed_process content : framed (process_of content).
Proof.
  unfold process.
  apply framed_bind; [apply framed_eval|intros entries].
  apply framed_bind; [apply framed_print|intros _].
  apply framed_bind; [apply framed_eval|intros leads].
  apply framed_bind; [apply framed_eval|intros sorted].
  apply framed_report.
Qed.

(** What a run writes, prints and how it ends depend on the input file
    only; it writes by laying export files over the files it finds. *)
Lemma main_framed (input : option string) :
  ∃ (written : gmap string string) c o,
    (∀ name, is_Some (written !! name) → name ∈ outputs)
    ∧ ∀ fs : gmap string string,
        fs !! INPUT_FILE = input → run fs = (mkWorld (written ∪ fs) c, o).
Proof.
  destruct input as [content|].
  - destruct (framed_process content []) as (written & c & r & Hdom & Hrun).
    exists written, c,
      (match r with Ok _ => Completed | Raise e => Uncaught e end).
    split; [done|]. intros fs Hfs. rewrite (main_found _ _ Hfs), Hrun.
    by destruct r.
  - destruct (stdout_error
      "ERROR: bucharest-results.json not found. Run the scraper first.")
      as [e|] eqn:He;
      [exists ∅, [], (Uncaught e)|eexists ∅, [_], (SysExit 1)];
      (split;
       [intros name [v Hv]; by rewrite lookup_empty in Hv
       |intros fs Hfs; by rewrite (main_missing _ Hfs), He, (left_id_L ∅ (∪))]).
Qed.



(** C9: a run is a function of the input file.  Two runs that find the same
    input file end the same way and print the same console, and when they
    complete their three exports have the same contents; a second run on the
    files the first one left reproduces them exactly. *)
Theorem run_deterministic (fs1 fs2 : gmap string string) :
  fs1 !! INPUT_FILE = fs2 !! INPUT_FILE →
  (run fs1).2 = (run fs2).2
  ∧ console (run fs1).1 = console (run fs2).1
  ∧ ((run fs1).2 = Completed →
       ∀ name, name ∈ outputs →
         files (run fs1).1 !! name = files (run fs2).1 !! name)
  ∧ run (files (run fs1).1) = run fs1.
Proof.
  intros Hsame.
  destruct (main_framed (fs1 !! INPUT_FILE))
    as (written & c & o & Hdom & Hrun).
  assert (Hin : written !! INPUT_FILE = None).
  { destruct (written !! INPUT_FILE) eqn:H; [|done].
    by destruct (output_is_not_input INPUT_FILE (Hdom _ (mk_is_Some _ _ H))). }
  pose proof (Hrun fs1 eq_refl) as H1.
  pose proof (Hrun fs2 (eq_sym Hsame)) as H2.
  split_and!.
  - by rewrite H1, H2.
  - by rewrite H1, H2.
  - intros Hdone name Hname.
    destruct (main_completed _ Hdone) as (content & ? & ? & ? & ? & ? & ? & ?
                                          & Hfs & _).
    rewrite H1 in Hdone. simpl in Hdone. subst o.
    assert (Hw : is_Some (written !! name)).
    { pose proof (Hrun {[ INPUT_FILE := content ]}) as H0.
      rewrite Hfs, lookup_singleton_eq in H0. specialize (H0 eq_refl).
      assert (Hdone0 : (run {[ INPUT_FILE := content ]}).2 = Completed)
        by by rewrite H0.
      destruct (main_completed _ Hdone0)
        as (? & ? & ? & ? & h & rows & rows1 & rows2
            & _ & _ & _ & _ & _ & _ & _ & _ & Heq).
      rewrite Heq in H0. injection H0 as Hfiles _.
      pose proof (lookup_exported h rows rows1 rows2
                    {[ INPUT_FILE := content ]} name Hname) as Hsome.
      rewrite Hfiles in Hsome.
      apply lookup_union_is_Some in Hsome as [?|[v Hv]]; [done|].
      apply lookup_singleton_Some in Hv as [<- _].
      by destruct (output_is_not_input INPUT_FILE Hname). }
    destruct Hw as [v Hv]. rewrite H1, H2. simpl.
    by rewrite !(lookup_union_Some_l _ _ _ _ Hv).
  - rewrite H1. simpl. rewrite (Hrun (written ∪ fs1)).
    + by rewrite (assoc_L (∪)), (idemp_L (∪) written).
    + by rewrite lookup_union_r.
Qed.

(** On entries of the data model no turn of the filter raises, so the run
    completes when the library raises nothing. *)
Lemma run_completes_on_well_typed_input (fs : gmap string string)
    content entries :
  fs !! INPUT_FILE = Some content →
  entries_of content = Ok entries →
  Forall well_typed entries →
  never open_error → writer_ok csv_row → never stdout_error →
  (run fs).2 = Completed ∧ exit_status (run fs).2 = 0.
Proof.
  intros Hfs Hload [leads Hrun]%well_typed_total Hopen Hrows Hquiet.
  by destruct (main_completes _ _ _ _ Hfs Hload Hrun Hopen Hrows Hquiet)
    as (sorted & h & rows & rows1 & rows2 & _ & _ & _ & _ & _ & ->).
Qed.

End RunFacts.




Lemma run_deterministic_witness :
  (sample_main {[ INPUT_FILE := "" ]}).2
  = (sample_main (<[ OUTPUT_ALL := "stale" ]> {[ INPUT_FILE := "" ]})).2
  ∧ console (sample_main {[ INPUT_FILE := "" ]}).1
    = console (sample_main
                 (<[ OUTPUT_ALL := "stale" ]> {[ INPUT_FILE := "" ]})).1
  ∧ ((sample_main {[ INPUT_FILE := "" ]}).2 = Completed →
     ∀ name, name ∈ outputs →
       files (sample_main {[ INPUT_FILE := "" ]}).1 !! name
       = files (sample_main
                  (<[ OUTPUT_ALL := "stale" ]> {[ INPUT_FILE := "" ]})).1
         !! name)
  ∧ sample_main (files (sample_main {[ INPUT_FILE := "" ]}).1)
    = sample_main {[ INPUT_FILE := "" ]}.
Proof.
  apply (run_deterministic sample_read sample_loads sample_row sample_str
           no_error no_error
           {[ INPUT_FILE := "" ]}
           (<[ OUTPUT_ALL := "stale" ]> {[ INPUT_FILE := "" ]})).
  vm_compute. reflexivity.
Defined.

(** ** The scenarios of the specification *)

(** Scenario A: a record with a web site is excluded. *)
Example scenario_A :
  filter_leads [JObj [("title", JStr "X"); ("web_site", JStr "http://x.com");
                      ("review_count", JInt 5); ("phone", JStr "0722")]]
  = Ok [].
Proof. reflexivity. Qed.

(** Scenario B: a plumber with five reviews and a phone is a tier-1 lead. *)
Example scenario_B :
  filter_leads [plumber_entry] = Ok [plumber_lead] ∧ tier plumber_lead = 1.
Proof. split; [vm_compute|]; reflexivity. Qed.

(** Scenario C: of two records with the same title and phone the first
    survives. *)
Example scenario_C :
  (leads ← filter_leads [salon_first; salon_again]; sort_leads leads)
  = Ok [listing_lead 2 "ABC Salon" "0733000000" 3].
Proof. vm_compute. reflexivity. Qed.

(** Scenario D: a record without review count, phone and emails is
    excluded. *)
Example scenario_D : filter_leads [JObj [("title", JStr "X")]] = Ok [].
Proof. reflexivity. Qed.

(** * Further properties of the script *)

(** ** Strings *)

Module StrLaws.
Import Str StrFacts.

Lemma lower_char_idem c : lower_char (lower_char c) = lower_char c.
Proof. by destruct c as [[] [] [] [] [] [] [] []]. Qed.

Lemma lower_idem s : lower (lower s) = lower s.
Proof.
  induction s as [|c s IH]; [done|]. simpl. by rewrite lower_char_idem, IH.
Qed.

Lemma lower_join sep l :
  lower (join sep l) = join (lower sep) (lower <$> l).
Proof.
  induction l as [|p [|q l] IH]; [done..|].
  change (join sep (p :: q :: l)) with (p +:+ sep +:+ join sep (q :: l)).
  rewrite !lower_app, IH. done.
Qed.

Lemma join_cons sep p l :
  join sep (p :: l) = p +:+ match l with [] => "" | _ => sep +:+ join sep l end.
Proof. destruct l; [|done]. simpl. by rewrite append_nil_r. Qed.

(** An item of a joined list is a substring of the joined text. *)
Lemma join_elem sep x l :
  x ∈ l → ∃ pre post, join sep l = pre +:+ x +:+ post.
Proof.
  induction l as [|p l IH]; intros Hx; [by apply elem_of_nil in Hx|].
  apply elem_of_cons in Hx as [->|Hx].
  - exists "". eexists. by rewrite join_cons.
  - destruct (IH Hx) as (pre & post & Hl). rewrite join_cons.
    destruct l as [|q l]; [by apply elem_of_nil in Hx|].
    rewrite Hl. exists (p +:+ sep +:+ pre), post.
    by rewrite !append_assoc.
Qed.

Lemma join_empty_cons p l : join "" (p :: l) = p +:+ join "" l.
Proof. rewrite join_cons. destruct l; [done|]. reflexivity. Qed.

Lemma join_empty_app l1 l2 : join "" (l1 ++ l2) = join "" l1 +:+ join "" l2.
Proof.
  induction l1 as [|p l1 IH]; [done|].
  rewrite <-app_comm_cons, !join_empty_cons, IH. by rewrite append_assoc.
Qed.

(** [rstrip] and [lstrip] leave nothing to strip. *)
Lemma rstrip_nonspace c s :
  isspace c = false → rstrip (String c s) = String c (rstrip s).
Proof. intros Hc. simpl. rewrite Hc. by destruct (rstrip s). Qed.

Lemma rstrip_idem s : rstrip (rstrip s) = rstrip s.
Proof.
  induction s as [|c s IH]; [done|]. simpl.
  destruct (rstrip s) as [|a r] eqn:Hr.
  - destruct (isspace c) eqn:Hc; [done|]. simpl. by rewrite Hc.
  - simpl in *. by rewrite IH.
Qed.

Lemma lstrip_cases s :
  lstrip s = "" ∨ ∃ c t, lstrip s = String c t ∧ isspace c = false.
Proof.
  induction s as [|c s IH]; [by left|]. simpl.
  destruct (isspace c) eqn:Hc; [done|]. right. eauto.
Qed.

Lemma lstrip_strip s : lstrip (strip s) = strip s.
Proof.
  unfold strip. destruct (lstrip_cases s) as [->|(c & t & -> & Hc)]; [done|].
  rewrite rstrip_nonspace by done. simpl. by rewrite Hc.
Qed.

Lemma strip_idem s : strip (strip s) = strip s.
Proof. unfold strip at 1. rewrite lstrip_strip. apply rstrip_idem. Qed.

Lemma blank_strip s : blank (strip s) = blank s.
Proof.
  destruct (blank s) eqn:Hb.
  - apply strip_empty in Hb. by rewrite Hb.
  - apply not_true_iff_false. rewrite <-strip_empty, strip_idem, strip_empty.
    by rewrite Hb.
Qed.

End StrLaws.

(** ** Classifier: case, fields and type errors *)

Section ClassifierLaws.
Import Str StrFacts StrLaws.

Lemma search_text_lower title (cats : list string) :
  search_text title cats = join " " (lower title :: (lower <$> cats)).
Proof. unfold search_text. by rewrite lower_join. Qed.

Lemma mentions_extend kws x pre post :
  mentions kws x → mentions kws (pre +:+ x +:+ post).
Proof.
  intros (kw & p & q & Hkw & ->). exists kw, (pre +:+ p), (q +:+ post).
  split; [done|]. by rewrite !append_assoc.
Qed.

Lemma tier_of_text_mentions text :
  mentions TIER1_KEYWORDS text → tier_of_text text = 1.
Proof. intros H%any_keyword_spec. unfold tier_of_text. by rewrite H. Qed.

Lemma tier1_keywords_lowercase : Forall (λ kw, lower kw = kw) TIER1_KEYWORDS.
Proof. repeat constructor. Qed.

(** X1: the classifier ignores letter case: two titles that are equal once
    lowercased, with category lists that are equal once lowercased, get the
    same tier. *)
Theorem classify_tier_ignores_case (title title' : string)
    (cats cats' : list string) :
  lower title = lower title' →
  lower <$> cats = lower <$> cats' →
  classify_tier title (JArr (JStr <$> cats))
  = classify_tier title' (JArr (JStr <$> cats')).
Proof.
  intros Ht Hc. rewrite !classify_tier_search_text, !search_text_lower.
  by rewrite Ht, Hc.
Qed.

Lemma classify_tier_ignores_case_witness :
  classify_tier "ROOF Fix" (JArr (JStr <$> ["Roofer"; "HOME"]))
  = classify_tier "roof fix" (JArr (JStr <$> ["roofer"; "home"])).
Proof.
  apply (classify_tier_ignores_case "ROOF Fix" "roof fix"
           ["Roofer"; "HOME"] ["roofer"; "home"]); reflexivity.
Defined.

(** X2: a tier-1 keyword anywhere in the title, or in any one category,
    makes the business tier 1, whatever the other texts hold (a tier-2
    keyword included) and with no regard to word boundaries. *)
Theorem keyword_in_title_or_category (title : string) (cats : list string) :
  mentions TIER1_KEYWORDS (lower title)
  ∨ (∃ c, c ∈ cats ∧ mentions TIER1_KEYWORDS (lower c)) →
  classify_tier title (JArr (JStr <$> cats)) = Ok 1.
Proof.
  intros H. rewrite classify_tier_search_text, search_text_lower.
  f_equal. apply tier_of_text_mentions.
  assert (∃ x, x ∈ lower title :: (lower <$> cats)
               ∧ mentions TIER1_KEYWORDS x) as (x & Hx & Hm).
  { destruct H as [H|(c & Hc & H)].
    - exists (lower title). split; [by left|done].
    - exists (lower c). split; [|done]. right. by apply list_elem_of_fmap_2. }
  destruct (join_elem " " _ _ Hx) as (pre & post & ->).
  by apply mentions_extend.
Qed.

Lemma keyword_in_title_or_category_witness :
  classify_tier "Salon Electrica" (JArr (JStr <$> ["Beauty"])) = Ok 1.
Proof.
  apply (keyword_in_title_or_category "Salon Electrica" ["Beauty"]).
  left. exists "electric", "salon ", "a". split; [|reflexivity].
  unfold TIER1_KEYWORDS. set_solver.
Defined.

(** X3: the title and the categories are joined before the keywords are
    looked up, so a keyword with a space in it also matches across the end
    of the title and the start of the first category. *)
Theorem keyword_across_title_and_category (a b t c : string)
    (rest : list string) :
  (a +:+ " " +:+ b) ∈ TIER1_KEYWORDS →
  classify_tier (t +:+ a) (JArr (JStr <$> (b +:+ c) :: rest)) = Ok 1.
Proof.
  intros Hkw. rewrite classify_tier_search_text. f_equal.
  apply tier_of_text_mentions. unfold search_text.
  rewrite join_cons, (join_cons _ (b +:+ c)).
  set (tail := match rest with [] => "" | _ => " " +:+ join " " rest end).
  replace ((t +:+ a) +:+ " " +:+ (b +:+ c) +:+ tail)
    with (t +:+ (a +:+ " " +:+ b) +:+ (c +:+ tail))
    by by rewrite !append_assoc.
  rewrite (lower_app t), (lower_app (a +:+ " " +:+ b)).
  pose proof tier1_keywords_lowercase as Hlow.
  rewrite Forall_forall in Hlow. rewrite (Hlow _ Hkw).
  by exists (a +:+ " " +:+ b), (lower t), (lower (c +:+ tail)).
Qed.

Lemma keyword_across_title_and_category_witness :
  classify_tier ("Total " +:+ "service")
    (JArr (JStr <$> ("auto" +:+ "motive parts") :: ["garage"])) = Ok 1.
Proof.
  apply (keyword_across_title_and_category "service" "auto" "Total "
           "motive parts" ["garage"]).
  unfold TIER1_KEYWORDS. set_solver.
Defined.

Lemma strs_errors l e : Py.strs l = Raise e → e = TypeError.
Proof.
  induction l as [|[| | | |s| |] l IH]; simpl; try done;
    try by intros [= <-].
  destruct (Py.strs l); simpl; [done|]. intros [= <-]. by apply IH.
Qed.

Lemma strs_raises l :
  Py.strs l = Raise TypeError ↔ ∃ v, v ∈ l ∧ ∀ s, v ≠ JStr s.
Proof.
  induction l as [|v l IH]; simpl.
  - split; [done|]. intros (v & Hv & _). by apply elem_of_nil in Hv.
  - destruct v as [| | | |s| |];
      try (split; [intros _; eexists; split; [by left|done]|done]).
    destruct (Py.strs l) as [ss|e] eqn:Hl; simpl.
    + split; [done|]. intros (v & [->|Hv]%elem_of_cons & Hne).
      * by destruct (Hne s).
      * assert (Ok ss = Raise TypeError) by (apply IH; eauto). done.
    + assert (e = TypeError) as -> by by eapply strs_errors.
      split; [|done]. intros _. destruct (proj1 IH eq_refl) as (v & Hv & Hne).
      exists v. split; [by right|done].
Qed.

(** X4: on a list of categories the classifier raises [TypeError] exactly
    when some item of the list is not a string, and returns a tier
    otherwise; a number, a boolean or null in place of the list always
    raises [TypeError]. *)
Theorem classify_tier_type_error (title : string) :
  (∀ l, classify_tier title (JArr l) = Raise TypeError
        ↔ ∃ v, v ∈ l ∧ ∀ s, v ≠ JStr s)
  ∧ (∀ l, (∀ v, v ∈ l → ∃ s, v = JStr s) →
          ∃ t, classify_tier title (JArr l) = Ok t)
  ∧ (∀ n, classify_tier title (JInt n) = Raise TypeError)
  ∧ (∀ b, classify_tier title (JBool b) = Raise TypeError)
  ∧ classify_tier title JNull = Raise TypeError
  ∧ (∀ f, classify_tier title (JFloat f) = Raise TypeError).
Proof.
  split_and!; try done.
  - intros l. rewrite <-strs_raises. unfold classify_tier. simpl.
    destruct (Py.strs l) as [ss|e]; simpl; [done|]. split; congruence.
  - intros l Hl. unfold classify_tier. simpl.
    destruct (Py.strs l) as [ss|e] eqn:Hs; simpl; [by eexists|].
    pose proof (strs_errors _ _ Hs) as ->.
    apply strs_raises in Hs as (v & Hv & Hne).
    destruct (Hl v Hv) as [s ->]. by destruct (Hne s).
Qed.

End ClassifierLaws.

(** ** Filter: what a lead holds, order, and removable entries *)

Section FilterLaws.
Import Str StrFacts StrLaws.

Lemma tier_of_text_range text :
  tier_of_text text = 1 ∨ tier_of_text text = 2 ∨ tier_of_text text = 3.
Proof.
  unfold tier_of_text.
  destruct (any_keyword TIER1_KEYWORDS text); [by left|].
  destruct (any_keyword TIER2_KEYWORDS text); auto.
Qed.

Lemma produces_tier e x : produces e x → tier x = 1 ∨ tier x = 2 ∨ tier x = 3.
Proof.
  intros (f & _ & _ & Hx). unfold build_lead in Hx.
  apply bind_Ok in Hx as (cats & _ & Hx).
  apply bind_Ok in Hx as (t & Ht & Hx).
  split_binds Hx. injection Hx as <-. simpl.
  unfold classify_tier in Ht. apply bind_Ok in Ht as (joined & _ & [= <-]).
  apply tier_of_text_range.
Qed.

Lemma produces_stripped e x :
  produces e x → strip (title x) = title x ∧ strip (phone x) = phone x.
Proof.
  intros (f & Hf & _ & (-> & -> & _)%build_lead_fields).
  apply read_fields_dict in Hf as (d & _ & _ & _ & Hphone & _ & Htitle).
  apply strip_or_text in Hphone as (p & _ & ->).
  apply strip_or_text in Htitle as (t & _ & ->).
  by rewrite !strip_idem.
Qed.

Lemma leads_from_entries entries leads :
  filter_leads entries = Ok leads →
  ∀ x, x ∈ leads → ∃ e, e ∈ entries ∧ produces e x.
Proof. intros (seen & _ & _ & _ & _ & Hfrom)%filter_leads_inv. exact Hfrom. Qed.

(** X5: every lead the filter returns has a tier among 1, 2 and 3, a review
    count that is a number and is not below 1, that is at least 1 or NaN,
    and a title and a phone without surrounding white space. *)
Theorem lead_invariant (entries : list json) (leads : list Lead) :
  filter_leads entries = Ok leads →
  ∀ x, x ∈ leads →
    (tier x = 1 ∨ tier x = 2 ∨ tier x = 3)
    ∧ (∃ n, Py.number (review_count x) = Some n
            ∧ (Num.leb (NInt 1) n = true ∨ n = NFloat FNaN))
    ∧ strip (title x) = title x
    ∧ strip (phone x) = phone x.
Proof.
  intros Hrun x (e & _ & Hx)%(leads_from_entries _ _ Hrun).
  split_and!.
  - by apply (produces_tier e).
  - destruct (produces_review_count e x Hx) as (n & Hn & Hlt).
    exists n. split; [done|]. by apply NumFacts.not_below_int.
  - by apply (produces_stripped e).
  - by apply (produces_stripped e).
Qed.

Lemma lead_invariant_witness :
  filter_leads nan_entries = Ok nan_leads
  ∧ (∀ x, x ∈ nan_leads →
       (tier x = 1 ∨ tier x = 2 ∨ tier x = 3)
       ∧ (∃ n, Py.number (review_count x) = Some n
               ∧ (Num.leb (NInt 1) n = true ∨ n = NFloat FNaN))
       ∧ strip (title x) = title x
       ∧ strip (phone x) = phone x).
Proof.
  assert (Hrun : filter_leads nan_entries = Ok nan_leads)
    by (vm_compute; reflexivity).
  split; [exact Hrun|]. exact (lead_invariant _ _ Hrun).
Defined.

Lemma filter_loop_kept st entries st' :
  filter_loop st entries = Ok st' →
  ∃ kept extra, kept `sublist_of` entries
    ∧ st'.1 = st.1 ++ extra ∧ Forall2 produces kept extra.
Proof.
  revert st. induction entries as [|e entries IH]; intros st; simpl.
  - intros [= <-]. exists [], []. by rewrite app_nil_r.
  - intros (st1 & He & Hrest)%bind_Ok.
    destruct (IH _ Hrest) as (kept & extra & Hsub & Hleads & Hall).
    destruct st as [leads seen].
    apply filter_entry_cases in He
      as (f & Hf & [(_ & ->)|[(_ & _ & ->)|(Hp & _ & x & Hx & ->)]]).
    + exists kept, extra. split_and!; [by apply sublist_cons|done..].
    + exists kept, extra. split_and!; [by apply sublist_cons|done..].
    + exists (e :: kept), (x :: extra). simpl in *. split_and!.
      * by apply sublist_skip.
      * by rewrite Hleads, <-app_assoc.
      * constructor; [by exists f|done].
Qed.

(** X6: the filter keeps the input order: the leads are built, one by one
    and in order, from a subsequence of the entries; so there are never
    more leads than entries. *)
Theorem leads_in_input_order (entries : list json) (leads : list Lead) :
  filter_leads entries = Ok leads →
  ∃ kept, kept `sublist_of` entries
    ∧ Forall2 produces kept leads
    ∧ (length leads ≤ length entries)%nat.
Proof.
  unfold filter_leads. intros (st & Hloop & [= <-])%bind_Ok.
  apply filter_loop_kept in Hloop as (kept & extra & Hsub & Hleads & Hall).
  simpl in Hleads. rewrite Hleads. exists kept. split_and!; [done..|].
  rewrite <-(Forall2_length _ _ _ Hall). by apply sublist_length.
Qed.

Lemma leads_in_input_order_witness :
  ∃ kept, kept `sublist_of` [salon_first; plumber_entry; salon_again]
    ∧ Forall2 produces kept
        [listing_lead 2 "ABC Salon" "0733000000" 3; plumber_lead]
    ∧ (length [listing_lead 2 "ABC Salon" "0733000000" 3; plumber_lead]
       ≤ length [salon_first; plumber_entry; salon_again])%nat.
Proof.
  apply (leads_in_input_order [salon_first; plumber_entry; salon_again]).
  vm_compute. reflexivity.
Defined.

(** X7: the leads collected from a prefix of the input are a prefix of the
    leads of the whole input: more input never changes, reorders or removes
    a lead already collected. *)
Theorem leads_of_prefix (l1 l2 : list json) (leads : list Lead) :
  filter_leads (l1 ++ l2) = Ok leads →
  ∃ leads1 extra, filter_leads l1 = Ok leads1 ∧ leads = leads1 ++ extra.
Proof.
  unfold filter_leads. rewrite filter_loop_app.
  intros (st & (st1 & H1 & H2)%bind_Ok & [= <-])%bind_Ok.
  apply filter_loop_extends in H2 as (extra & Hleads & _).
  exists st1.1, extra. by rewrite H1.
Qed.

Lemma leads_of_prefix_witness :
  ∃ leads1 extra,
    filter_leads [salon_first] = Ok leads1
    ∧ [listing_lead 2 "ABC Salon" "0733000000" 3; plumber_lead]
      = leads1 ++ extra.
Proof.
  apply (leads_of_prefix [salon_first] [plumber_entry; salon_again]).
  vm_compute. reflexivity.
Defined.

(** X8: an entry that one of the three tests skips, or that repeats the key
    of an earlier qualifying entry, can be taken out of the input without
    changing what the filter returns. *)
Theorem dropped_entry_is_invisible (pre post : list json) (e : json)
    (f : fields) :
  read_fields e = Ok f →
  passes f = Ok false
  ∨ (passes f = Ok true
     ∧ ∃ e1, e1 ∈ pre ∧ qualifies e1 (dedup_key (f_title f) (f_phone f))) →
  filter_leads (pre ++ e :: post) = filter_leads (pre ++ post).
Proof.
  intros Hf Hdrop. unfold filter_leads. rewrite !filter_loop_app.
  destruct (filter_loop ([], ∅) pre) as [[leads seen]|err] eqn:Hpre; [|done].
  with_strategy opaque [filter_entry] simpl.
  rewrite filter_entry_eq, Hf. simpl.
  destruct Hdrop as [->|(-> & e1 & He1 & Hq)]; simpl; [done|].
  rewrite bool_decide_true; [done|].
  destruct (filter_loop_inv _ _ Hpre) as (Hseen & _). apply Hseen. eauto.
Qed.

Lemma dropped_entry_is_invisible_witness :
  filter_leads ([salon_first; plumber_entry] ++ salon_again :: [bar_in_title])
  = filter_leads ([salon_first; plumber_entry] ++ [bar_in_title]).
Proof.
  apply (dropped_entry_is_invisible [salon_first; plumber_entry] [bar_in_title]
           salon_again
           (mkFields "" (JInt 40) "0733000000" (JArr []) "ABC Salon")).
  - reflexivity.
  - right. split; [reflexivity|]. exists salon_first. split; [by left|].
    eexists. split_and!; reflexivity.
Defined.

End FilterLaws.

(** ** Filter: what raises, and when *)

Section FilterErrors.
Import Str StrFacts.

Lemma strip_or_cases v :
  (∃ w, Py.strip (Py.or v (JStr "")) = Ok w)
  ∨ Py.strip (Py.or v (JStr "")) = Raise AttributeError.
Proof. unfold Py.strip. destruct (Py.or v (JStr "")); eauto. Qed.

Lemma strip_true_non_text v :
  true_non_text v → Py.strip (Py.or v (JStr "")) = Raise AttributeError.
Proof.
  intros [Ht Hne]. unfold Py.or. rewrite Ht.
  destruct v as [| | | |s| |]; try done. by destruct (Hne s).
Qed.

Lemma read_fields_raises_only_attribute_error e err :
  read_fields e = Raise err → err = AttributeError.
Proof.
  unfold read_fields. destruct e as [| | | | | |d]; simpl; try by intros [= <-].
  destruct (strip_or_cases (default JNull (Py.lookup d "web_site")))
    as [[w ->]| ->]; simpl; [|by intros [= <-]].
  destruct (strip_or_cases (default JNull (Py.lookup d "phone")))
    as [[p ->]| ->]; simpl; [|by intros [= <-]].
  destruct (strip_or_cases (default JNull (Py.lookup d "title")))
    as [[t ->]| ->]; simpl; [done|by intros [= <-]].
Qed.

Lemma read_fields_true_non_text d k v :
  k ∈ ["web_site"; "phone"; "title"] →
  Py.lookup d k = Some v → true_non_text v →
  read_fields (JObj d) = Raise AttributeError.
Proof.
  intros Hk Hv Hbad.
  assert (Hraise : Py.strip (Py.or (default JNull (Py.lookup d k)) (JStr ""))
                   = Raise AttributeError).
  { rewrite Hv. by apply strip_true_non_text. }
  destruct (read_fields (JObj d)) as [f|err] eqn:Hf.
  - exfalso.
    apply read_fields_dict in Hf as (d' & [= <-] & Hw & _ & Hp & _ & Ht).
    rewrite !elem_of_cons, elem_of_nil in Hk.
    destruct Hk as [->|[->|[->|[]]]]; congruence.
  - by rewrite (read_fields_raises_only_attribute_error _ _ Hf).
Qed.

(** X9: the five reads come before the three tests.  An entry that is not a
    JSON object, or whose [web_site], [phone] or [title] holds a true value
    that is not a string, makes the turn raise [AttributeError], also when
    one of the tests would have skipped the entry. *)
Theorem unreadable_entry_raises (st : list Lead * gset string) :
  (∀ e, (∀ d, e ≠ JObj d) → filter_entry st e = Raise AttributeError)
  ∧ (∀ d k v,
       k ∈ ["web_site"; "phone"; "title"] →
       Py.lookup d k = Some v → true_non_text v →
       filter_entry st (JObj d) = Raise AttributeError).
Proof.
  destruct st as [leads seen]. split.
  - intros e He. destruct e as [| | | | | |d]; try done. by destruct (He d).
  - intros d k v Hk Hv Hbad.
    by rewrite filter_entry_eq, (read_fields_true_non_text d k v).
Qed.

Lemma unreadable_entry_raises_witness :
  filter_entry ([], ∅) (JInt 5) = Raise AttributeError
  ∧ filter_entry ([], ∅) number_phone_entry = Raise AttributeError.
Proof.
  split.
  - apply (unreadable_entry_raises ([], ∅)). done.
  - apply (proj2 (unreadable_entry_raises ([], ∅)) _ "phone" (JInt 722)).
    + set_solver.
    + reflexivity.
    + split; [reflexivity|done].
Defined.

(** X10: the review count is compared only after the web site test.  A
    [review_count] that is a true value and not a number (a string, a list, a
    dict) makes the turn raise [TypeError] when the entry has no web site,
    and is never looked at when the entry has one: the entry is skipped. *)
Theorem review_count_type_error (st : list Lead * gset string)
    (d : list (string * json)) (f : fields) (v : json) :
  read_fields (JObj d) = Ok f →
  Py.lookup d "review_count" = Some v →
  Py.truthy v = true → Py.number v = None →
  (f_website f = "" → filter_entry st (JObj d) = Raise TypeError)
  ∧ (f_website f ≠ "" → filter_entry st (JObj d) = Ok st).
Proof.
  intros Hf Hv Ht Hn. destruct st as [leads seen].
  rewrite filter_entry_eq, Hf. simpl.
  pose proof Hf as (d' & [= <-] & _ & Hrc & _)%read_fields_dict.
  rewrite Hv in Hrc. simpl in Hrc. unfold Py.or in Hrc. rewrite Ht in Hrc.
  unfold passes, Py.lt. rewrite Hrc, Hn. split.
  - by intros ->.
  - intros Hw%nonempty_true. by rewrite Hw.
Qed.

Lemma review_count_type_error_witness :
  filter_entry ([], ∅) text_count_entry = Raise TypeError
  ∧ filter_entry ([], ∅) site_entry = Ok ([], ∅).
Proof.
  split.
  - apply (review_count_type_error ([], ∅) _
             (mkFields "" (JStr "many") "1" (JArr []) "Shop") (JStr "many"));
      reflexivity.
  - apply (review_count_type_error ([], ∅) _
             (mkFields "http://shop.example" (JStr "many") "1" (JArr []) "Shop")
             (JStr "many")); try reflexivity. done.
Defined.

(** X11: one raising entry loses everything: when a turn raises, the filter
    raises the same exception and returns no lead, however many leads the
    entries before had given and whatever comes after. *)
Theorem raising_entry_discards_leads (pre post : list json) (e : json)
    (st : list Lead * gset string) (err : exn) :
  filter_loop ([], ∅) pre = Ok st →
  filter_entry st e = Raise err →
  filter_leads (pre ++ e :: post) = Raise err.
Proof.
  intros Hpre He. unfold filter_leads. rewrite filter_loop_app, Hpre.
  with_strategy opaque [filter_entry] simpl. by rewrite He.
Qed.

Lemma raising_entry_discards_leads_witness :
  filter_leads ([plumber_entry] ++ JInt 5 :: [salon_first])
  = Raise AttributeError.
Proof.
  apply (raising_entry_discards_leads [plumber_entry] [salon_first] (JInt 5)
           ([plumber_lead], {[ "Instalatii Popescu|0722123456" ]})).
  - vm_compute. reflexivity.
  - reflexivity.
Defined.

End FilterErrors.

(** ** Ranker: the order of the whole list, and the tiers as segments *)

Section RankerLaws.

Lemma StronglySorted_lookup_lt {B} (R : B → B → Prop) (l : list B) i j a b :
  StronglySorted R l → (i < j)%nat →
  l !! i = Some a → l !! j = Some b → R a b.
Proof.
  intros Hl. revert i j. induction Hl as [|c l Hl IH Hall]; intros i j; [done|].
  destruct i as [|i], j as [|j]; simpl; try lia.
  - intros _ [= ->] Hb. rewrite List.Forall_forall in Hall.
    apply Hall, list_elem_of_In. by eapply list_elem_of_lookup_2.
  - intros Hij. apply IH. lia.
Qed.

Lemma StronglySorted_filter {B} (R : B → B → Prop) (P : B → Prop)
    `{!∀ x, Decision (P x)} (l : list B) :
  StronglySorted R l → StronglySorted R (filter P l).
Proof.
  induction 1 as [|c l Hl IH Hall]; [constructor|].
  rewrite filter_cons. destruct (decide (P c)); [|done].
  constructor; [done|]. rewrite List.Forall_forall in *.
  intros x [_ Hx]%list_elem_of_In%list_elem_of_filter. apply Hall.
  by apply list_elem_of_In.
Qed.

(** X12: when no review count is NaN, the sorted list is in order as a
    whole, not only between neighbours: of any two leads the earlier one has
    the lower tier, or the same tier and at least as many reviews. *)
Theorem sorted_list_is_ordered (leads sorted : list Lead) :
  sort_leads leads = Ok sorted →
  Forall counted leads →
  ∀ (i j : nat) (a b : Lead),
    (i < j)%nat → sorted !! i = Some a → sorted !! j = Some b →
    ∃ ra rb, Py.number (review_count a) = Some ra
             ∧ Py.number (review_count b) = Some rb
             ∧ (tier a < tier b
                ∨ (tier a = tier b ∧ Num.leb rb ra = true)).
Proof.
  intros Hsort Hcounted i j a b Hij Ha Hb.
  pose proof (sort_leads_in_order _ _ Hsort Hcounted) as Hss.
  by apply (StronglySorted_lookup_lt in_order sorted i j).
Qed.

Lemma sorted_list_is_ordered_witness :
  sort_leads tied_leads = Ok tied_sorted
  ∧ Forall counted tied_leads
  ∧ (∀ (i j : nat) (a b : Lead),
       (i < j)%nat → tied_sorted !! i = Some a → tied_sorted !! j = Some b →
       ∃ ra rb, Py.number (review_count a) = Some ra
                ∧ Py.number (review_count b) = Some rb
                ∧ (tier a < tier b
                   ∨ (tier a = tier b ∧ Num.leb rb ra = true))).
Proof.
  assert (Hsort : sort_leads tied_leads = Ok tied_sorted)
    by (vm_compute; reflexivity).
  assert (Hcounted : Forall counted tied_leads)
    by (repeat constructor; eexists; split; reflexivity).
  split; [exact Hsort|]. split; [exact Hcounted|].
  exact (sorted_list_is_ordered _ _ Hsort Hcounted).
Defined.

End RankerLaws.

Section TierSegments.

(** X13: sorting a list that the sort returned returns it unchanged. *)
Theorem sort_leads_idempotent (leads sorted : list Lead) :
  sort_leads leads = Ok sorted → sort_leads sorted = Ok sorted.
Proof.
  intros (_ & -> & Hok & _)%sort_leads_Ok.
  set (sk := stable_sort key_lt _) in *.
  assert (Hnum : Forall (λ x, is_Some (Py.number (review_count x))) sk.*2).
  { apply Forall_fmap. eapply Forall_impl; [done|]. by intros p [_ ?]. }
  unfold sort_leads. rewrite (decorate_numbers _ Hnum). simpl.
  rewrite (keyed_ok_eq _ Hok). f_equal. f_equal.
  apply stable_sort_of_sorted. apply stable_sort_sorted, key_lt_asym.
Qed.

Lemma sort_leads_idempotent_witness :
  sort_leads mixed_sorted = Ok mixed_sorted.
Proof.
  apply (sort_leads_idempotent
           [ listing_lead 2 "Salon Ana" "1" 4; listing_lead 1 "Roof Fix" "2" 2;
             listing_lead 3 "Cafe" "3" 9; listing_lead 1 "Plumber Dan" "4" 7 ]).
  vm_compute. reflexivity.
Defined.

Lemma filter_tier_below (t : Z) (x : Lead) (l : list Lead) :
  List.Forall (tier_le x) l → t < tier x → filter (λ y, tier y = t) l = [].
Proof.
  intros Hall Ht. apply filter_none. intros y Hy Hty.
  rewrite List.Forall_forall in Hall.
  pose proof (Hall y (proj1 (list_elem_of_In _ _) Hy)) as Hle.
  unfold tier_le in Hle. lia.
Qed.

(** A list in tier order whose tiers are 1, 2 or 3 is its tier-1 leads,
    then its tier-2 leads, then its tier-3 leads. *)
Lemma tier_segments (l : list Lead) :
  StronglySorted tier_le l →
  Forall (λ x, tier x = 1 ∨ tier x = 2 ∨ tier x = 3) l →
  l = filter (λ x, tier x = 1) l ++ filter (λ x, tier x = 2) l
      ++ filter (λ x, tier x = 3) l.
Proof.
  induction 1 as [|x l Hl IH Hall]; intros Htiers; [done|].
  apply Forall_cons in Htiers as [Hx Htiers]. specialize (IH Htiers).
  destruct Hx as [Hx|[Hx|Hx]].
  - rewrite (filter_cons_True (λ y, tier y = 1)) by done.
    rewrite !filter_cons_False by lia. simpl. by f_equal.
  - rewrite (filter_cons_True (λ y, tier y = 2)) by done.
    rewrite !filter_cons_False by lia.
    rewrite (filter_tier_below 1 x l) in IH |- * by (done || lia).
    simpl. by f_equal.
  - rewrite (filter_cons_True (λ y, tier y = 3)) by done.
    rewrite !filter_cons_False by lia.
    rewrite (filter_tier_below 1 x l), (filter_tier_below 2 x l) in IH |- *
      by (done || lia).
    simpl. by f_equal.
Qed.

Lemma leads_tiers entries leads :
  filter_leads entries = Ok leads →
  Forall (λ x, tier x = 1 ∨ tier x = 2 ∨ tier x = 3) leads.
Proof.
  intros Hrun. apply Forall_forall.
  intros x (e & _ & Hx)%(leads_from_entries _ _ Hrun).
  by apply (produces_tier e).
Qed.

Lemma sorted_tier_segments entries leads sorted :
  filter_leads entries = Ok leads → sort_leads leads = Ok sorted →
  sorted = filter (λ x, tier x = 1) sorted ++ filter (λ x, tier x = 2) sorted
           ++ filter (λ x, tier x = 3) sorted.
Proof.
  intros Hrun Hsort. apply tier_segments; [by eapply sort_leads_tiers|].
  rewrite (sort_leads_perm _ _ Hsort). by eapply leads_tiers.
Qed.

(** X14: the sorted list is the tier-1 subset, followed by the tier-2
    subset, followed by the tier-3 leads: the two subsets the script
    exports are consecutive segments of the full list, and every lead is in
    exactly one of the three. *)
Theorem sorted_list_is_tier_segments (entries : list json)
    (leads sorted : list Lead) :
  filter_leads entries = Ok leads →
  sort_leads leads = Ok sorted →
  sorted = filter (λ x, tier x = 1) sorted ++ filter (λ x, tier x = 2) sorted
           ++ filter (λ x, tier x = 3) sorted.
Proof. apply sorted_tier_segments. Qed.

Lemma sorted_list_is_tier_segments_witness :
  mixed_sorted
  = filter (λ x, tier x = 1) mixed_sorted
    ++ filter (λ x, tier x = 2) mixed_sorted
    ++ filter (λ x, tier x = 3) mixed_sorted.
Proof.
  apply (sorted_list_is_tier_segments mixed_entries
           [ listing_lead 2 "Salon Ana" "1" 4; listing_lead 1 "Roof Fix" "2" 2;
             listing_lead 3 "Cafe" "3" 9; listing_lead 1 "Plumber Dan" "4" 7 ]);
    vm_compute; reflexivity.
Defined.

Lemma tier_counts_sum (l : list Lead) :
  Forall (λ x, tier x = 1 ∨ tier x = 2 ∨ tier x = 3) l →
  (length (filter (λ x, tier x = 1%Z) l)
   + length (filter (λ x, tier x = 2%Z) l)
   + length (filter (λ x, tier x = 3%Z) l) = length l)%nat.
Proof.
  induction 1 as [|x l Hx _ IH]; [done|].
  rewrite !filter_cons.
  destruct (decide (tier x = 1)), (decide (tier x = 2)),
    (decide (tier x = 3)); simpl; lia.
Qed.

End TierSegments.

Section Statistics.

(** X15: the three tier counts the script prints add up to the number of
    leads it prints, which is the number of leads the filter kept. *)
Theorem tier_counts_add_up (entries : list json) (leads sorted : list Lead) :
  filter_leads entries = Ok leads →
  sort_leads leads = Ok sorted →
  (tier_count 1 sorted + tier_count 2 sorted + tier_count 3 sorted
   = length sorted)%nat
  ∧ length sorted = length leads.
Proof.
  intros Hrun Hsort. pose proof (sort_leads_perm _ _ Hsort) as Hperm. split.
  - apply tier_counts_sum. rewrite Hperm. by eapply leads_tiers.
  - by rewrite Hperm.
Qed.

End Statistics.

Lemma tier_counts_add_up_witness :
  (tier_count 1 mixed_sorted + tier_count 2 mixed_sorted
   + tier_count 3 mixed_sorted = length mixed_sorted)%nat
  ∧ length mixed_sorted = length
      [ listing_lead 2 "Salon Ana" "1" 4; listing_lead 1 "Roof Fix" "2" 2;
        listing_lead 3 "Cafe" "3" 9; listing_lead 1 "Plumber Dan" "4" 7 ].
Proof.
  apply (tier_counts_add_up mixed_entries); vm_compute; reflexivity.
Defined.

Section Preview.

(** X16: the preview holds at most ten leads, all of tier 1 and taken from
    the sorted list; when no review count is NaN they are the most reviewed
    ones: each has at least as many reviews as every tier-1 lead the preview
    leaves out. *)
Theorem preview_shows_most_reviewed (leads sorted : list Lead) :
  sort_leads leads = Ok sorted →
  (length (top_tier1 sorted) ≤ 10)%nat
  ∧ (∀ x, x ∈ top_tier1 sorted → x ∈ sorted ∧ tier x = 1)
  ∧ (Forall counted leads →
     ∀ x y, x ∈ top_tier1 sorted →
       y ∈ drop 10 (filter (λ l, tier l = 1) sorted) →
       ∃ rx ry, Py.number (review_count x) = Some rx
                ∧ Py.number (review_count y) = Some ry
                ∧ Num.leb ry rx = true).
Proof.
  intros Hsort. unfold top_tier1.
  set (tier1 := filter (λ l, tier l = 1) sorted).
  assert (Hin : ∀ x, x ∈ tier1 → x ∈ sorted ∧ tier x = 1).
  { intros x [? ?]%list_elem_of_filter. done. }
  split_and!.
  - rewrite length_take. lia.
  - intros x (i & Hx & _)%elem_of_take.
    apply Hin. by eapply list_elem_of_lookup_2.
  - intros Hcounted x y (i & Hx & Hi)%elem_of_take (j & Hy)%list_elem_of_lookup.
    rewrite lookup_drop in Hy.
    pose proof (sort_leads_in_order _ _ Hsort Hcounted) as Hss.
    apply (StronglySorted_filter _ (λ l, tier l = 1)) in Hss.
    assert (Hle : in_order x y).
    { apply (StronglySorted_lookup_lt _ tier1 i (10 + j)); [done|lia|done..]. }
    destruct (Hin x (list_elem_of_lookup_2 _ _ _ Hx)) as [_ Htx].
    destruct (Hin y (list_elem_of_lookup_2 _ _ _ Hy)) as [_ Hty].
    destruct Hle as (rx & ry & Hrx & Hry & [?|[_ Hle]]); [lia|].
    by exists rx, ry.
Qed.

Lemma preview_shows_most_reviewed_witness :
  sort_leads roofers = Ok roofers_sorted
  ∧ (length (top_tier1 roofers_sorted) ≤ 10)%nat
  ∧ (∀ x, x ∈ top_tier1 roofers_sorted → x ∈ roofers_sorted ∧ tier x = 1)
  ∧ (∀ x y, x ∈ top_tier1 roofers_sorted →
       y ∈ drop 10 (filter (λ l, tier l = 1) roofers_sorted) →
       ∃ rx ry, Py.number (review_count x) = Some rx
                ∧ Py.number (review_count y) = Some ry
                ∧ Num.leb ry rx = true).
Proof.
  assert (Hsort : sort_leads roofers = Ok roofers_sorted)
    by (vm_compute; reflexivity).
  assert (Hcounted : Forall counted roofers)
    by (repeat constructor; eexists; split; reflexivity).
  destruct (preview_shows_most_reviewed roofers roofers_sorted Hsort)
    as (Hlen & Hin & Hmost).
  split_and!; [exact Hsort|exact Hlen|exact Hin|exact (Hmost Hcounted)].
Defined.

End Preview.

(** ** Whole runs: the exports, the console and the other files *)

Section RunLaws.
Variable read_text : string → string * option exn.
Variable json_loads : string → parsed.
Variable csv_row : list json → result string.
Variable py_str : json → string.
Variable open_error : string → option exn.
Variable stdout_error : string → option exn.

#[local] Abbreviation run' :=
  (main read_text json_loads csv_row py_str open_error stdout_error).
#[local] Abbreviation rows := (csv_rows csv_row).

(** X17: in a completed run the tier-1 export is the header row and the
    rows of the tier-1 leads, the tier-2 export the header row and the rows
    of the tier-2 leads, and the full export the header row, the rows of the
    tier-1 leads, the rows of the tier-2 leads and then the rows of the
    tier-3 leads: the tier-1 file is a prefix of the full file, and the rows
    of the tier-2 file follow it there. *)
Theorem exports_are_segments (fs : gmap string string) :
  (run' fs).2 = Completed →
  ∃ content entries leads sorted h rows1 rows2 rows3,
    fs !! INPUT_FILE = Some content
    ∧ read_entries read_text json_loads content = Ok entries
    ∧ filter_leads entries = Ok leads
    ∧ sort_leads leads = Ok sorted
    ∧ csv_row (JStr <$> fieldnames) = Ok h
    ∧ rows (filter (λ x, tier x = 1) sorted) = Ok rows1
    ∧ rows (filter (λ x, tier x = 2) sorted) = Ok rows2
    ∧ rows (filter (λ x, tier x = 3) sorted) = Ok rows3
    ∧ files (run' fs).1 !! OUTPUT_TIER1 = Some (h +:+ rows1)
    ∧ files (run' fs).1 !! OUTPUT_TIER2 = Some (h +:+ rows2)
    ∧ files (run' fs).1 !! OUTPUT_ALL
      = Some ((h +:+ rows1) +:+ rows2 +:+ rows3).
Proof.
  intros Hdone.
  destruct (main_completed _ _ _ _ _ _ _ Hdone)
    as (content & entries & leads & sorted & h & rows_all & rows1 & rows2
        & Hfs & Hload & Hrun & Hsort & Hh & Hall & Hrows1 & Hrows2 & ->).
  pose proof (sorted_tier_segments _ _ _ Hrun Hsort) as Hseg.
  rewrite Hseg, !csv_rows_app, Hrows1, Hrows2 in Hall. simpl in Hall.
  destruct (rows (filter (λ x, tier x = 3) sorted)) as [rows3|e] eqn:Hrows3;
    [|done].
  injection Hall as <-.
  exists content, entries, leads, sorted, h, rows1, rows2, rows3.
  split_and!; try done; simpl; unfold exported.
  - by rewrite lookup_insert_ne, lookup_insert_eq.
  - by rewrite lookup_insert_eq.
  - rewrite !lookup_insert_ne, lookup_insert_eq by done.
    by rewrite StrFacts.append_assoc.
Qed.

Lemma length_preview_blocks (l : list Lead) i :
  length (concat (imap (λ k, preview_block py_str (i + k)) l))
  = (6 * length l)%nat.
Proof.
  revert i. induction l as [|x l IH]; intros i; [done|].
  rewrite imap_cons, imap_preview_block.
  change (concat (?a :: ?r)) with (a ++ concat r).
  rewrite length_app, IH. simpl length. lia.
Qed.

(** X18: after the nine summary texts, the console of a completed run holds
    for each of the at most ten previewed leads, in order, a block of six
    texts that starts with the number of the lead, counted from 1, and its
    title. *)
Theorem console_of_completed_run (fs : gmap string string) (content : string)
    (entries : list json) (leads sorted : list Lead) :
  fs !! INPUT_FILE = Some content →
  read_entries read_text json_loads content = Ok entries →
  filter_leads entries = Ok leads →
  sort_leads leads = Ok sorted →
  (run' fs).2 = Completed →
  ∃ summary : list string,
    length summary = 9%nat
    ∧ console (run' fs).1
      = summary
        ++ concat (imap (λ k, preview_block py_str (S k)) (top_tier1 sorted))
    ∧ length (console (run' fs).1)
      = (9 + 6 * min 10 (tier_count 1 sorted))%nat.
Proof.
  intros Hfs Hload Hrun Hsort Hdone.
  destruct (main_completed _ _ _ _ _ _ _ Hdone)
    as (content' & entries' & leads' & sorted' & h & rows_all & rows1 & rows2
        & Hfs' & Hload' & Hrun' & Hsort' & _ & _ & _ & _ & ->).
  assert (content' = content) as -> by congruence.
  assert (entries' = entries) as -> by congruence.
  assert (leads' = leads) as -> by congruence.
  assert (sorted' = sorted) as -> by congruence.
  cbn [fst console]. unfold report_texts.
  eexists [_; _; _; _; _; _; _; _; _]. split_and!; [done..|].
  cbn [length app]. do 9 f_equal.
  change (λ k, preview_block py_str (S k))
    with (λ k, preview_block py_str (1 + k)).
  rewrite length_preview_blocks. unfold top_tier1, tier_count.
  by rewrite length_take.
Qed.

(** X19: a run changes no file but the three exports: every other file,
    the input file among them, is as it was, however the run ends; and when
    the input file is missing, or the loader or the filter raises, the run
    changes no file at all. *)
Theorem run_touches_only_exports (fs : gmap string string) :
  (∀ name, name ∉ outputs → files (run' fs).1 !! name = fs !! name)
  ∧ (fs !! INPUT_FILE = None → files (run' fs).1 = fs)
  ∧ (∀ content e,
       fs !! INPUT_FILE = Some content →
       read_entries read_text json_loads content = Raise e
       ∨ (∃ entries, read_entries read_text json_loads content = Ok entries
                     ∧ filter_leads entries = Raise e) →
       files (run' fs).1 = fs).
Proof.
  split_and!.
  - intros name Hname.
    destruct (main_framed read_text json_loads csv_row py_str open_error
                stdout_error (fs !! INPUT_FILE))
      as (written & c & o & Hdom & Hrun).
    rewrite (Hrun fs eq_refl). simpl. apply lookup_union_r.
    destruct (written !! name) eqn:Hw; [|done].
    by destruct Hname; apply Hdom.
  - intros Hfs. rewrite main_missing by done. by destruct (stdout_error _).
  - intros content e Hfs Hraise.
    apply (main_early_end _ _ _ _ _ _ _ content); [done|].
    intros entries leads Hload Hrun.
    destruct Hraise as [?|(entries' & ? & ?)]; congruence.
Qed.

End RunLaws.

Lemma mixed_run_loads :
  read_entries sample_read listing_loads mixed_text = Ok mixed_entries.
Proof. vm_compute. reflexivity. Qed.

Lemma mixed_run_completes :
  (listing_main {[ INPUT_FILE := mixed_text ]}).2 = Completed.
Proof. vm_compute. reflexivity. Qed.

Lemma exports_are_segments_witness :
  ∃ content entries leads sorted h rows1 rows2 rows3,
    ({[ INPUT_FILE := mixed_text ]} : gmap string string) !! INPUT_FILE
    = Some content
    ∧ read_entries sample_read listing_loads content = Ok entries
    ∧ filter_leads entries = Ok leads
    ∧ sort_leads leads = Ok sorted
    ∧ sample_row (JStr <$> fieldnames) = Ok h
    ∧ csv_rows sample_row (filter (λ x, tier x = 1) sorted) = Ok rows1
    ∧ csv_rows sample_row (filter (λ x, tier x = 2) sorted) = Ok rows2
    ∧ csv_rows sample_row (filter (λ x, tier x = 3) sorted) = Ok rows3
    ∧ files (listing_main {[ INPUT_FILE := mixed_text ]}).1 !! OUTPUT_TIER1
      = Some (h +:+ rows1)
    ∧ files (listing_main {[ INPUT_FILE := mixed_text ]}).1 !! OUTPUT_TIER2
      = Some (h +:+ rows2)
    ∧ files (listing_main {[ INPUT_FILE := mixed_text ]}).1 !! OUTPUT_ALL
      = Some ((h +:+ rows1) +:+ rows2 +:+ rows3).
Proof.
  apply (exports_are_segments sample_read listing_loads sample_row sample_str
           no_error no_error {[ INPUT_FILE := mixed_text ]}).
  exact mixed_run_completes.
Defined.

Lemma console_of_completed_run_witness :
  ∃ summary : list string,
    length summary = 9%nat
    ∧ console (listing_main {[ INPUT_FILE := mixed_text ]}).1
      = summary
        ++ concat (imap (λ k, preview_block sample_str (S k))
                     (top_tier1 mixed_sorted))
    ∧ length (console (listing_main {[ INPUT_FILE := mixed_text ]}).1)
      = (9 + 6 * min 10 (tier_count 1 mixed_sorted))%nat.
Proof.
  apply (console_of_completed_run sample_read listing_loads sample_row
           sample_str no_error no_error
           {[ INPUT_FILE := mixed_text ]} mixed_text mixed_entries
           [ listing_lead 2 "Salon Ana" "1" 4; listing_lead 1 "Roof Fix" "2" 2;
             listing_lead 3 "Cafe" "3" 9; listing_lead 1 "Plumber Dan" "4" 7 ]).
  - reflexivity.
  - exact mixed_run_loads.
  - vm_compute. reflexivity.
  - vm_compute. reflexivity.
  - exact mixed_run_completes.
Defined.

Lemma run_touches_only_exports_witness :
  files (listing_main
           (<[ "notes.txt" := "keep" ]> {[ INPUT_FILE := mixed_text ]})).1
    !! "notes.txt"
  = Some "keep"
  ∧ files (sample_main {[ INPUT_FILE := "5" ]}).1 = {[ INPUT_FILE := "5" ]}.
Proof.
  split.
  - rewrite (proj1 (run_touches_only_exports sample_read listing_loads
                      sample_row sample_str no_error no_error
                      (<[ "notes.txt" := "keep" ]> {[ INPUT_FILE := mixed_text ]}))
               "notes.txt").
    + reflexivity.
    + unfold outputs. rewrite !elem_of_cons, elem_of_nil.
      intros [H|[H|[H|[]]]]; discriminate H.
  - apply (proj2 (proj2 (run_touches_only_exports sample_read sample_loads
                           sample_row sample_str no_error no_error
                           {[ INPUT_FILE := "5" ]})) "5" AttributeError).
    + reflexivity.
    + right. exists [JInt 5]. split; reflexivity.
Defined.

(** The exports written before a step raises stay: on a listing whose title
    holds a letter outside ASCII, with a standard output that encodes ASCII
    only, the three exports are written and the summary printed before the
    preview raises, and the run ends with status 1. *)
Example exports_stay_when_the_preview_raises :
  (cafe_main {[ INPUT_FILE := cafe_line ]}).2 = Uncaught UnicodeEncodeError
  ∧ exit_status (cafe_main {[ INPUT_FILE := cafe_line ]}).2 = 1
  ∧ length (console (cafe_main {[ INPUT_FILE := cafe_line ]}).1) = 9%nat
  ∧ ∀ name, name ∈ outputs →
      is_Some (files (cafe_main {[ INPUT_FILE := cafe_line ]}).1 !! name).
Proof.
  split_and!; [vm_compute; reflexivity..|].
  intros name. unfold outputs. rewrite !elem_of_cons, elem_of_nil.
  intros [->|[->|[->|[]]]]; vm_compute; by eexists.
Qed.

(** ** Loader: layout of the input file *)

Section LoaderLaws.
Import Str StrFacts StrLaws.
Variable json_loads : string → parsed.

Lemma line_records_strip line :
  line_records json_loads (strip line) = line_records json_loads line.
Proof. unfold line_records. by rewrite blank_strip, strip_idem. Qed.

Lemma length_line_records line r :
  line_records json_loads line = Ok r → (length r ≤ 1)%nat.
Proof.
  unfold line_records. destruct (blank line); [intros [= <-]; simpl; lia|].
  destruct (json_loads (strip line)); intros [= <-]; simpl; lia.
Qed.

Lemma length_records lines entries :
  records json_loads lines = Ok entries →
  (length entries ≤ length lines)%nat.
Proof.
  revert entries. induction lines as [|line lines IH]; intros entries; simpl.
  - intros [= <-]. done.
  - intros (r & Hr & (rs & Hrs & [= <-])%bind_Ok)%bind_Ok.
    rewrite length_app. pose proof (length_line_records _ _ Hr).
    pose proof (IH _ Hrs). lia.
Qed.

(** X20: the loader does not depend on the layout of the file: loading two
    runs of lines one after the other gives the entries of the first
    followed by the entries of the second, or the exception of the first of
    the two that raises; white space around a line and blank lines between
    lines change nothing; and there are never more entries than lines. *)
Theorem load_ignores_layout :
  (∀ l1 l2, load json_loads (l1 ++ l2)
            = a ← load json_loads l1; b ← load json_loads l2; Ok (a ++ b))
  ∧ (∀ lines, load json_loads (strip <$> lines) = load json_loads lines)
  ∧ (∀ lines, load json_loads (filter (λ l, blank l = false) lines)
              = load json_loads lines)
  ∧ (∀ lines entries, load json_loads lines = Ok entries →
       (length entries ≤ length lines)%nat).
Proof.
  split_and!.
  - intros l1 l2. rewrite !load_records. apply records_app.
  - intros lines. rewrite !load_records.
    induction lines as [|line lines IH]; [done|].
    rewrite fmap_cons. simpl. by rewrite IH, line_records_strip.
  - intros lines. rewrite !load_records.
    induction lines as [|line lines IH]; [done|].
    rewrite filter_cons. simpl. rewrite <-IH.
    destruct (decide (blank line = false)) as [Hb|Hb]; [done|].
    apply not_false_is_true in Hb. unfold line_records at 1. rewrite Hb.
    simpl. by destruct (records json_loads _).
  - intros lines entries. rewrite load_records. apply length_records.
Qed.

End LoaderLaws.

Lemma load_ignores_layout_witness :
  load sample_loads ([" 5 "] ++ ["null"; "oops"]) = Ok [JInt 5; JNull]
  ∧ (length [JInt 5; JNull] ≤ length [" 5 "; "null"; "oops"])%nat.
Proof.
  destruct (load_ignores_layout sample_loads) as (Happ & _ & _ & Hlen).
  split.
  - rewrite Happ. reflexivity.
  - apply Hlen. reflexivity.
Defined.

Section FileLines.
Import Str StrFacts StrLaws.

Lemma is_line_cons c line :
  not_lf c = true → is_line line → is_line (String c line).
Proof.
  intros Hc (body & c' & -> & Hbody). exists (String c body), c'.
  split; [done|]. simpl. by rewrite Hc.
Qed.

Lemma lines_keepends_join (s : string) :
  join "" (lines_keepends s) = s ∧ Forall is_line (lines_keepends s).
Proof.
  induction s as [|c s [IHjoin IHlines]]; [by split; [|constructor]|].
  simpl. destruct (Ascii.eqb c "010") eqn:Hc.
  - split.
    + by rewrite join_empty_cons, IHjoin.
    + constructor; [|done]. by exists "", c.
  - destruct (lines_keepends s) as [|l ls].
    + split; [by rewrite <-IHjoin|]. constructor; [|done]. by exists "", c.
    + split.
      * rewrite join_empty_cons in IHjoin |- *.
        by rewrite <-IHjoin, append_cons.
      * apply Forall_cons in IHlines as [Hl Hls]. constructor; [|done].
        apply is_line_cons; [|done]. unfold not_lf. by rewrite Hc.
Qed.

Lemma universal_newlines_no_cr s :
  all_chars not_cr s = true → universal_newlines s = s.
Proof.
  induction s as [|c s IH]; [done|]. simpl. unfold not_cr at 1.
  intros [Hc Hs]%andb_true_iff. apply negb_true_iff in Hc.
  by rewrite Hc, IH.
Qed.

Lemma universal_newlines_to_crlf s :
  all_chars not_cr s = true → universal_newlines (to_crlf s) = s.
Proof.
  induction s as [|c s IH]; [done|]. simpl. unfold not_cr at 1.
  intros [Hc Hs]%andb_true_iff. apply negb_true_iff in Hc.
  destruct (Ascii.eqb c "010") eqn:Hlf.
  - apply Ascii.eqb_eq in Hlf as ->. simpl. by rewrite IH.
  - simpl. by rewrite Hc, IH.
Qed.

(** X21: iterating over a file cuts its text into lines and loses nothing
    but the carriage returns: the lines, put end to end, are the text with
    its line endings translated, which is the text itself when it holds no
    carriage return; no line is empty and none holds a line feed before its
    last character. *)
Theorem file_lines_partition (s : string) :
  join "" (file_lines s) = universal_newlines s
  ∧ Forall is_line (file_lines s)
  ∧ (all_chars not_cr s = true → join "" (file_lines s) = s).
Proof.
  unfold file_lines.
  destruct (lines_keepends_join (universal_newlines s)) as [Hjoin Hlines].
  split_and!; [done..|]. intros Hs.
  by rewrite Hjoin, universal_newlines_no_cr.
Qed.

Lemma file_lines_partition_witness :
  join "" (file_lines (to_crlf mixed_text)) = mixed_text
  ∧ Forall is_line (file_lines (to_crlf mixed_text))
  ∧ join "" (file_lines mixed_text) = mixed_text.
Proof.
  destruct (file_lines_partition (to_crlf mixed_text)) as (Hjoin & Hlines & _).
  destruct (file_lines_partition mixed_text) as (_ & _ & Hsame).
  split_and!.
  - rewrite Hjoin. vm_compute. reflexivity.
  - exact Hlines.
  - apply Hsame. vm_compute. reflexivity.
Defined.

(** X22: line endings do not matter: a text without carriage returns and
    the same text with every line feed written as carriage return, line
    feed are read as the same lines. *)
Theorem crlf_text_reads_the_same (s : string) :
  all_chars not_cr s = true → file_lines (to_crlf s) = file_lines s.
Proof.
  intros Hs. unfold file_lines.
  by rewrite universal_newlines_to_crlf, universal_newlines_no_cr.
Qed.

Lemma crlf_text_reads_the_same_witness :
  file_lines (to_crlf mixed_text) = file_lines mixed_text.
Proof. apply (crlf_text_reads_the_same mixed_text). vm_compute. reflexivity. Defined.

End FileLines.

(** ** Filter: the emails text of a lead *)

Section EmailsText.
Import Str.

Lemma build_lead_emails e f x :
  build_lead e f = Ok x →
  (if Py.truthy (f_emails f) then Py.join "; " (f_emails f) else Ok "")
  = Ok (emails x).
Proof.
  unfold build_lead. intros H.
  apply bind_Ok in H as (cats & _ & H). apply bind_Ok in H as (t & _ & H).
  apply bind_Ok in H as (c & _ & H). apply bind_Ok in H as (m & Hm & H).
  split_binds H. by injection H as <-.
Qed.

(** X23: the emails text of a lead is the list of email strings joined with
    semicolon and space, and empty when the field is absent, null or empty;
    when the field holds one string instead of a list, its characters are
    what is joined. *)
Theorem lead_emails_text (d : list (string * json)) (x : Lead) :
  produces (JObj d) x →
  (∀ ss : list string,
     Py.lookup d "emails" = Some (JArr (JStr <$> ss)) →
     emails x = join "; " ss)
  ∧ (∀ s, Py.lookup d "emails" = Some (JStr s) →
          emails x = join "; " (chars s))
  ∧ (Py.lookup d "emails" = None ∨ Py.lookup d "emails" = Some JNull →
     emails x = "").
Proof.
  intros (f & Hf & _ & Hx%build_lead_emails).
  apply read_fields_dict in Hf as (d' & [= <-] & _ & _ & _ & Hem & _).
  rewrite Hem in Hx. clear Hem. split_and!.
  - intros ss Hl. rewrite Hl in Hx.
    destruct ss as [|s ss]; [simpl in Hx; by injection Hx as <-|].
    change (default JNull (Some ?v)) with v in Hx.
    change (Py.or (JArr (JStr <$> s :: ss)) (JArr []))
      with (JArr (JStr <$> s :: ss)) in Hx.
    change (Py.truthy (JArr (JStr <$> s :: ss))) with true in Hx.
    unfold Py.join in Hx. rewrite strs_of_strings in Hx.
    by injection Hx as <-.
  - intros s Hl. rewrite Hl in Hx. simpl in Hx. unfold Py.or in Hx.
    destruct s as [|c s]; simpl in Hx; by injection Hx as <-.
  - intros [Hl|Hl]; rewrite Hl in Hx; simpl in Hx; by injection Hx as <-.
Qed.

Lemma lead_emails_text_witness :
  filter_leads [JObj text_emails_fields] = Ok [text_emails_lead]
  ∧ (∀ s, Py.lookup text_emails_fields "emails" = Some (JStr s) →
          emails text_emails_lead = join "; " (chars s)).
Proof.
  split; [vm_compute; reflexivity|].
  apply (lead_emails_text text_emails_fields text_emails_lead).
  eexists. split_and!; reflexivity.
Defined.

End EmailsText.

Lemma classify_tier_type_error_witness :
  classify_tier "Roof Fix" (JArr [JStr "home"; JInt 3]) = Raise TypeError
  ∧ ∃ t, classify_tier "Roof Fix" (JArr [JStr "home"]) = Ok t.
Proof.
  split.
  - apply (proj1 (classify_tier_type_error "Roof Fix")
             [JStr "home"; JInt 3]).
    exists (JInt 3). split; [|done]. right. by left.
  - apply (proj1 (proj2 (classify_tier_type_error "Roof Fix")) [JStr "home"]).
    intros v ->%list_elem_of_singleton. by eexists.
Defined.
